(** * Wave1D: the finite-difference wave simulator of
      [src/environments/finite_diff_wave.py]

    The Python class [Wave1D] is embedded as a record of its attributes
    together with one Rocq function per method.  Methods that can raise
    return a [result]; methods that mutate the object return the mutated
    object.

    Scalars.  The program computes on IEEE doubles.  The embedding does not
    fix a carrier: every definition is written over an arbitrary type [F]
    with the operations the program uses ([Scalar F]).  Theorems that only
    follow the control flow and the array plumbing hold for every such
    carrier; theorems that need arithmetic say which laws they use
    ([ring_theory], [ordered_laws]).  The canonical rationals [Qc] are the
    executable instance used for the concrete runs.

    Library routines.  [np.zeros], [np.linspace], [np.copy], [np.sum], the
    element-wise operators with their broadcasting rule and item access are
    modelled after numpy's behaviour on one-dimensional arrays.
    [np.gradient] and [scipy.integrate.simps] are left as parameters. *)

From Stdlib Require Import ZArith List Lia Ring Ring_theory QArith Qcanon.
From stdpp Require Import base tactics option list.

Set Default Proof Using "Type".
Close Scope Qc_scope.
Close Scope Q_scope.
Local Open Scope Z_scope.

(** ** Exceptions *)

Inductive exn : Type :=
| ZeroDivisionError   (* Python float division by zero *)
| ValueError          (* numpy: shapes that do not broadcast, negative sizes *)
| IndexError.         (* item access out of bounds *)

Inductive result (A : Type) : Type :=
| Ok (a : A)
| Raise (e : exn).
Arguments Ok {A} a.
Arguments Raise {A} e.

#[global] Instance result_ret : MRet result := fun A a => Ok a.
#[global] Instance result_bind : MBind result := fun A B f m =>
  match m with
  | Ok a => f a
  | Raise e => Raise e
  end.

Definition is_ok {A} (r : result A) : bool :=
  match r with Ok _ => true | Raise _ => false end.

(** ** Scalars *)

Class Scalar (F : Type) : Type := {
  of_int : Z -> F;        (* an int used in float arithmetic: [float(k)], [0], [2] *)
  half : F;               (* the literal [0.5] *)
  fadd : F -> F -> F;
  fsub : F -> F -> F;
  fmul : F -> F -> F;
  fdiv : F -> F -> F;     (* numpy's true division: total, no exception *)
  fneg : F -> F;
  fexp : F -> F;          (* [np.exp] *)
  fis_zero : F -> bool    (* [x == 0] *)
}.

(** ** Control: [for i in range(lo, hi)] *)

Definition py_range (lo hi : Z) : list Z :=
  map (fun k => lo + Z.of_nat k) (seq 0 (Z.to_nat (hi - lo))).

Fixpoint foldM {S : Type} (body : Z -> S -> result S) (idxs : list Z) (s : S)
  : result S :=
  match idxs with
  | [] => Ok s
  | i :: rest => s' ← body i s; foldM body rest s'
  end.

Definition for_range {S : Type} (lo hi : Z) (body : Z -> S -> result S) (s : S)
  : result S :=
  foldM body (py_range lo hi) s.

Section Model.
Context {F : Type} `{Scalar F}.

Definition zero : F := of_int 0.
Definition two : F := of_int 2.

(** [x**2], as one multiplication.  On Python floats [**] raises
    [OverflowError] where the square leaves the range of doubles; that case
    is not modelled. *)
Definition pow2 (x : F) : F := fmul x x.

(** Python's [a / b] on floats. *)
Definition py_truediv (a b : F) : result F :=
  if fis_zero b then Raise ZeroDivisionError else Ok (fdiv a b).

(** ** One-dimensional numpy arrays *)

(** An index as Python reads it: negative indices count from the end. *)
Definition norm_index (len : nat) (i : Z) : option nat :=
  if 0 <=? i then
    if i <? Z.of_nat len then Some (Z.to_nat i) else None
  else
    if 0 <=? Z.of_nat len + i then Some (Z.to_nat (Z.of_nat len + i)) else None.

(** [a[i]] *)
Definition getitem (a : list F) (i : Z) : result F :=
  match norm_index (length a) i with
  | Some k =>
      match a !! k with
      | Some v => Ok v
      | None => Raise IndexError
      end
  | None => Raise IndexError
  end.

(** [a[i] = v] *)
Definition setitem (a : list F) (i : Z) (v : F) : result (list F) :=
  match norm_index (length a) i with
  | Some k => Ok (<[k := v]> a)
  | None => Raise IndexError
  end.

(** [np.zeros(n)] *)
Definition np_zeros (n : Z) : result (list F) :=
  if n <? 0 then Raise ValueError else Ok (replicate (Z.to_nat n) zero).

(** [np.linspace(start, stop, num)], end point included. *)
Definition np_linspace (start stop : F) (num : Z) : result (list F) :=
  if num <? 0 then Raise ValueError
  else
    let div := num - 1 in
    let delta := fsub stop start in
    let idx := py_range 0 num in
    let y :=
      if 0 <? div then
        let step := fdiv delta (of_int div) in
        if fis_zero step
        then map (fun i => fmul (fdiv (of_int i) (of_int div)) delta) idx
        else map (fun i => fmul (of_int i) step) idx
      else map (fun i => fmul (of_int i) delta) idx in
    let y := map (fun v => fadd v start) y in
    Ok (if 1 <? num then <[Z.to_nat (num - 1) := stop]> y else y).

(** A slice bound as Python clamps it. *)
Definition clamp_index (len : nat) (i : Z) : nat :=
  Z.to_nat (Z.min (Z.max (if i <? 0 then i + Z.of_nat len else i) 0)
                  (Z.of_nat len)).

(** [a[lo:hi]] *)
Definition py_slice {A : Type} (a : list A) (lo hi : Z) : list A :=
  let l := clamp_index (length a) lo in
  let h := clamp_index (length a) hi in
  take (h - l)%nat (drop l a).

(** Element-wise binary operator on two one-dimensional arrays, with numpy's
    broadcasting rule: equal lengths, or one side has length 1. *)
Definition broadcast2 (op : F -> F -> F) (a b : list F) : result (list F) :=
  if (length a =? length b)%nat then Ok (zip_with op a b)
  else
    match a, b with
    | [x], _ => Ok (map (op x) b)
    | _, [y] => Ok (map (fun x => op x y) a)
    | _, _ => Raise ValueError
    end.

(** [dst[:] = src] *)
Definition assign_all (dst src : list F) : result (list F) :=
  if (length src =? length dst)%nat then Ok src
  else
    match src with
    | [x] => Ok (replicate (length dst) x)
    | _ => Raise ValueError
    end.

(** [np.sum]: a reduction with [+]; the empty sum is [0.0]. *)
Definition np_sum (a : list F) : F :=
  match a with
  | [] => zero
  | x :: a' => fold_left fadd a' x
  end.

(** ** The object *)

Record Config : Type := {
  time_interval : F;
  wave_speed : F;
  system_length : F;
  num_lattice_points : Z;
  num_force_points_cfg : Z;
  force_width_cfg : F
}.

Record Wave1D : Type := {
  dt : F;
  c_speed : F;
  L : F;
  Nx : Z;
  num_force_points : Z;
  force_locations : list F;
  force_width : F;
  dx : F;
  x_mesh : list F;
  C : F;
  C2 : F;
  height : list F;
  height_n : list F;
  height_nm1 : list F;
  height_traj : list (list F);
  action_traj : list (list F);
  t : F;
  n : Z;
  force_vals : list F
}.

Definition set_height (w : Wave1D) (v : list F) : Wave1D :=
  {| dt := dt w; c_speed := c_speed w; L := L w; Nx := Nx w;
     num_force_points := num_force_points w;
     force_locations := force_locations w; force_width := force_width w;
     dx := dx w; x_mesh := x_mesh w; C := C w; C2 := C2 w;
     height := v; height_n := height_n w; height_nm1 := height_nm1 w;
     height_traj := height_traj w; action_traj := action_traj w;
     t := t w; n := n w; force_vals := force_vals w |}.

Definition set_height_n (w : Wave1D) (v : list F) : Wave1D :=
  {| dt := dt w; c_speed := c_speed w; L := L w; Nx := Nx w;
     num_force_points := num_force_points w;
     force_locations := force_locations w; force_width := force_width w;
     dx := dx w; x_mesh := x_mesh w; C := C w; C2 := C2 w;
     height := height w; height_n := v; height_nm1 := height_nm1 w;
     height_traj := height_traj w; action_traj := action_traj w;
     t := t w; n := n w; force_vals := force_vals w |}.

Definition set_height_nm1 (w : Wave1D) (v : list F) : Wave1D :=
  {| dt := dt w; c_speed := c_speed w; L := L w; Nx := Nx w;
     num_force_points := num_force_points w;
     force_locations := force_locations w; force_width := force_width w;
     dx := dx w; x_mesh := x_mesh w; C := C w; C2 := C2 w;
     height := height w; height_n := height_n w; height_nm1 := v;
     height_traj := height_traj w; action_traj := action_traj w;
     t := t w; n := n w; force_vals := force_vals w |}.

Definition set_t (w : Wave1D) (v : F) : Wave1D :=
  {| dt := dt w; c_speed := c_speed w; L := L w; Nx := Nx w;
     num_force_points := num_force_points w;
     force_locations := force_locations w; force_width := force_width w;
     dx := dx w; x_mesh := x_mesh w; C := C w; C2 := C2 w;
     height := height w; height_n := height_n w; height_nm1 := height_nm1 w;
     height_traj := height_traj w; action_traj := action_traj w;
     t := v; n := n w; force_vals := force_vals w |}.

Definition set_n (w : Wave1D) (v : Z) : Wave1D :=
  {| dt := dt w; c_speed := c_speed w; L := L w; Nx := Nx w;
     num_force_points := num_force_points w;
     force_locations := force_locations w; force_width := force_width w;
     dx := dx w; x_mesh := x_mesh w; C := C w; C2 := C2 w;
     height := height w; height_n := height_n w; height_nm1 := height_nm1 w;
     height_traj := height_traj w; action_traj := action_traj w;
     t := t w; n := v; force_vals := force_vals w |}.

Definition set_force_vals (w : Wave1D) (v : list F) : Wave1D :=
  {| dt := dt w; c_speed := c_speed w; L := L w; Nx := Nx w;
     num_force_points := num_force_points w;
     force_locations := force_locations w; force_width := force_width w;
     dx := dx w; x_mesh := x_mesh w; C := C w; C2 := C2 w;
     height := height w; height_n := height_n w; height_nm1 := height_nm1 w;
     height_traj := height_traj w; action_traj := action_traj w;
     t := t w; n := n w; force_vals := v |}.

(** ** Methods *)

(** [self.Velocity_0 = lambda x: 0] and [self.Initial_Height = lambda x: 0] *)
Definition Velocity_0 (x : F) : F := zero.
Definition Initial_Height (x : F) : F := zero.

(** The Gaussian profile [np.exp(-0.5*((x-self.force_locations)**2)/self.force_width)]. *)
Definition gaussians (w : Wave1D) (x : F) : list F :=
  let d := map (fun l => fsub x l) (force_locations w) in
  let sq := map pow2 d in
  let m := map (fun v => fmul (fneg half) v) sq in
  let q := map (fun v => fdiv v (force_width w)) m in
  map fexp q.

(** [impulse_term(x)] *)
Definition impulse_term (w : Wave1D) (x : F) : result F :=
  p ← broadcast2 fmul (force_vals w) (gaussians w x);
  Ok (np_sum p).

(** Body of the first loop of [reset]. *)
Definition reset_init_body (i : Z) (w : Wave1D) : result Wave1D :=
  xi ← getitem (x_mesh w) i;
  a ← setitem (height_n w) i (Initial_Height xi);
  Ok (set_height_n w a).

(** Body of the second loop of [reset]: the special first step. *)
Definition reset_step_body (i : Z) (w : Wave1D) : result Wave1D :=
  hn ← getitem (height_n w) i;
  xi ← getitem (x_mesh w) i;
  a ← setitem (height w) i (fadd hn (fmul (dt w) (Velocity_0 xi)));
  let w := set_height w a in
  cur ← getitem (height w) i;
  hl ← getitem (height_n w) (i - 1);
  hc ← getitem (height_n w) i;
  hr ← getitem (height_n w) (i + 1);
  a ← setitem (height w) i
        (fadd cur (fmul (fmul half (C2 w))
                        (fadd (fsub hl (fmul two hc)) hr)));
  let w := set_height w a in
  cur ← getitem (height w) i;
  xi ← getitem (x_mesh w) i;
  imp ← impulse_term w xi;
  a ← setitem (height w) i (fadd cur (fmul (fmul half (pow2 (dt w))) imp));
  Ok (set_height w a).

(** The tail shared by [reset] and [single_step]: boundary conditions, then
    the switch of the solution arrays. *)
Definition force_boundary_and_switch (w : Wave1D) : result Wave1D :=
  a ← setitem (height w) 0 zero;
  let w := set_height w a in
  a ← setitem (height w) (Nx w) zero;
  let w := set_height w a in
  a ← assign_all (height_nm1 w) (height_n w);
  let w := set_height_nm1 w a in
  a ← assign_all (height_n w) (height w);
  Ok (set_height_n w a).

Definition reset (w : Wave1D) : result Wave1D :=
  let w := set_t w zero in
  let w := set_n w 0 in
  fv ← np_zeros (num_force_points w);
  let w := set_force_vals w fv in
  w ← for_range 0 (Nx w + 1) reset_init_body w;
  w ← for_range 1 (Nx w) reset_step_body w;
  force_boundary_and_switch w.

(** Body of the loop of [single_step]. *)
Definition step_body (i : Z) (w : Wave1D) : result Wave1D :=
  hm ← getitem (height_nm1 w) i;
  hn ← getitem (height_n w) i;
  a ← setitem (height w) i (fadd (fneg hm) (fmul two hn));
  let w := set_height w a in
  cur ← getitem (height w) i;
  hl ← getitem (height_n w) (i - 1);
  hc ← getitem (height_n w) i;
  hr ← getitem (height_n w) (i + 1);
  a ← setitem (height w) i
        (fadd cur (fmul (C2 w) (fadd (fsub hl (fmul two hc)) hr)));
  let w := set_height w a in
  cur ← getitem (height w) i;
  xi ← getitem (x_mesh w) i;
  imp ← impulse_term w xi;
  a ← setitem (height w) i (fadd cur (fmul (pow2 (dt w)) imp));
  Ok (set_height w a).

Definition single_step (w : Wave1D) : result Wave1D :=
  let w := set_t w (fadd (t w) (dt w)) in
  let w := set_n w (n w + 1) in
  w ← for_range 1 (Nx w) step_body w;
  force_boundary_and_switch w.

(** [take_in_action(action)]: [self.force_vals = np.copy(action)] *)
Definition take_in_action (w : Wave1D) (action : list F) : result Wave1D :=
  Ok (set_force_vals w action).

(** [__init__(config)].  The real parameters of [config] are Python floats,
    so the two divisions of the constructor are Python's and raise on a zero
    divisor.  [t], [n] and [force_vals] do not exist before [reset] creates
    them; the record holds placeholders that [reset] overwrites. *)
Definition init (config : Config) : result Wave1D :=
  let dt_ := time_interval config in
  let c_ := wave_speed config in
  let L_ := system_length config in
  let Nx_ := num_lattice_points config in
  let nfp := num_force_points_cfg config in
  lin ← np_linspace zero L_ (nfp + 2);
  let locs := py_slice lin 1 (nfp + 1) in
  let fw := fmul (force_width_cfg config) L_ in
  dx0 ← py_truediv L_ (of_int Nx_);
  xm ← np_linspace zero L_ (Nx_ + 1);
  C_ ← py_truediv (fmul c_ dt_) dx0;
  let C2_ := pow2 C_ in
  x1 ← getitem xm 1;
  x0 ← getitem xm 0;
  let dx_ := fsub x1 x0 in
  h ← np_zeros (Nx_ + 1);
  hn ← np_zeros (Nx_ + 1);
  hm ← np_zeros (Nx_ + 1);
  reset {| dt := dt_; c_speed := c_; L := L_; Nx := Nx_;
           num_force_points := nfp; force_locations := locs;
           force_width := fw; dx := dx_; x_mesh := xm; C := C_; C2 := C2_;
           height := h; height_n := hn; height_nm1 := hm;
           height_traj := []; action_traj := [];
           t := zero; n := 0; force_vals := [] |}.

(** [get_impulse_profile()] *)
Fixpoint profile_loop (w : Wave1D) (idxs : list Z) (profile : list F)
  : result (list F) :=
  match idxs with
  | [] => Ok profile
  | i :: rest =>
      xi ← getitem (x_mesh w) i;
      imp ← impulse_term w xi;
      profile_loop w rest (profile ++ [imp])
  end.

Definition get_impulse_profile (w : Wave1D) : result (list F) :=
  profile_loop w (py_range 0 (Nx w + 1)) [].

(** [get_observation()]: the array of shape (1, Nx+1, 3) is kept as its three
    channels [observation[0,:,0]], [observation[0,:,1]], [observation[0,:,2]]. *)
Record Observation : Type := {
  chan0 : list F;
  chan1 : list F;
  chan2 : list F
}.

Definition get_observation (w : Wave1D) : result Observation :=
  blank ← np_zeros (Nx w + 1);
  c0 ← assign_all blank (height w);
  c1 ← assign_all blank (height_n w);
  c2 ← assign_all blank (height_nm1 w);
  Ok {| chan0 := c0; chan1 := c1; chan2 := c2 |}.

(** In-place [a += b]: the result keeps the shape of [a]. *)
Definition inplace2 (op : F -> F -> F) (a b : list F) : result (list F) :=
  if (length a =? length b)%nat then Ok (zip_with op a b)
  else
    match b with
    | [y] => Ok (map (fun x => op x y) a)
    | _ => Raise ValueError
    end.

(** [np.gradient(f, x)] and [scipy.integrate.simps(y, x)] are library
    routines; the program only passes arrays to them. *)
Variable np_gradient : list F -> list F -> result (list F).
Variable simps : list F -> list F -> result F.

(** [energy()] *)
Definition energy (w : Wave1D) : result F :=
  d ← broadcast2 fsub (height w) (height_nm1 w);
  let dudt := map (fun v => fdiv v (dt w)) d in
  dudx ← np_gradient (height w) (x_mesh w);
  g ← np_gradient dudx (x_mesh w);
  space_term ← broadcast2 fmul (map fneg (height w)) g;
  energy_density ← broadcast2 fadd (map pow2 dudt)
                      (map (fun v => fmul (pow2 (C w)) v) (map pow2 dudx));
  energy_density ← inplace2 fadd energy_density (map pow2 (height w));
  s ← simps energy_density (x_mesh w);
  Ok (fmul half s).

(** ** The object as its callers drive it *)

Inductive call : Type :=
| Reset
| SingleStep
| TakeInAction (action : list F)
| GetImpulseProfile
| GetObservation
| Energy.

Inductive value : Type :=
| VNone
| VArray (a : list F)
| VObservation (o : Observation)
| VFloat (x : F).

(** One call: the value returned and the object afterwards. *)
Definition exec (c : call) (w : Wave1D) : result (value * Wave1D) :=
  match c with
  | Reset => w' ← reset w; Ok (VNone, w')
  | SingleStep => w' ← single_step w; Ok (VNone, w')
  | TakeInAction a => w' ← take_in_action w a; Ok (VNone, w')
  | GetImpulseProfile => p ← get_impulse_profile w; Ok (VArray p, w)
  | GetObservation => o ← get_observation w; Ok (VObservation o, w)
  | Energy => e ← energy w; Ok (VFloat e, w)
  end.

(** The states a caller can bring a constructed object to with [reset],
    [single_step] and [take_in_action]; the action is any vector.  Only calls
    that return are followed: the object that a [single_step] which raised
    leaves behind is not among these states, see [visited] further down. *)
Inductive reachable (config : Config) : Wave1D -> Prop :=
| reach_init w :
    init config = Ok w -> reachable config w
| reach_reset w w' :
    reachable config w -> reset w = Ok w' -> reachable config w'
| reach_step w w' :
    reachable config w -> single_step w = Ok w' -> reachable config w'
| reach_action w a w' :
    reachable config w -> take_in_action w a = Ok w' -> reachable config w'.

End Model.

Arguments Config F : clear implicits.
Arguments Wave1D F : clear implicits.
Arguments Observation F : clear implicits.
Arguments call F : clear implicits.
Arguments value F : clear implicits.

(** ** The rational instance

    [Qc] has exact arithmetic and decidable equality, so every method can be
    run.  The exponential has no rational values; the instance takes the
    rational function [1/(1+x^2)] in its place, which like the Gaussian factor
    is 1 at 0 and decays on both sides.  No theorem below depends on this
    choice: they are stated for every [Scalar]. *)

Module Rational.

Definition qc_of_int (k : Z) : Qc := Q2Qc (inject_Z k).

Definition qc_is_zero (x : Qc) : bool :=
  if Qc_eq_dec x (qc_of_int 0) then true else false.

Definition qc_bump (x : Qc) : Qc :=
  Qcdiv (qc_of_int 1) (Qcplus (qc_of_int 1) (Qcmult x x)).

#[global] Instance qc_scalar : Scalar Qc := {|
  of_int := qc_of_int;
  half := Q2Qc (1 # 2);
  fadd := Qcplus;
  fsub := Qcminus;
  fmul := Qcmult;
  fdiv := Qcdiv;
  fneg := Qcopp;
  fexp := qc_bump;
  fis_zero := qc_is_zero
|}.

(** Stand-ins for the two library routines: differences over the mesh
    (one-sided at both ends) and the trapezoidal sum. *)
Fixpoint diffs (f x : list Qc) : list Qc :=
  match f, x with
  | f0 :: (f1 :: _) as f', x0 :: (x1 :: _) as x' =>
      Qcdiv (Qcminus f1 f0) (Qcminus x1 x0) :: diffs f' x'
  | _, _ => []
  end.

Definition qc_gradient (f x : list Qc) : result (list Qc) :=
  if (length f =? length x)%nat && (2 <=? length x)%nat
  then Ok (diffs f x ++ [List.last (diffs f x) (qc_of_int 0)])
  else Raise ValueError.

Fixpoint trapz (y x : list Qc) : Qc :=
  match y, x with
  | y0 :: (y1 :: _) as y', x0 :: (x1 :: _) as x' =>
      Qcplus (Qcmult (Qcmult (Q2Qc (1 # 2)) (Qcminus x1 x0)) (Qcplus y0 y1))
             (trapz y' x')
  | _, _ => qc_of_int 0
  end.

Definition qc_simps (y x : list Qc) : result Qc :=
  if (length y =? length x)%nat then Ok (trapz y x) else Raise ValueError.

(** dt = 1/100, c = 1, L = 1, Nx = 4, three pistons of width 1/20. *)
Definition demo_config : Config Qc :=
  {| time_interval := Q2Qc (1 # 100);
     wave_speed := qc_of_int 1;
     system_length := qc_of_int 1;
     num_lattice_points := 4;
     num_force_points_cfg := 3;
     force_width_cfg := Q2Qc (1 # 20) |}.

End Rational.

(** * Properties *)

(** ** Item access, ranges and loops *)

Lemma bind_Ok {A B : Type} (m : result A) (f : A -> result B) (b : B) :
  (m ≫= f) = Ok b -> exists a, m = Ok a /\ f a = Ok b.
Proof. destruct m as [a|e]; simpl; [eauto | discriminate]. Qed.

(** Reduce the monadic glue and the field accesses, nothing else. *)
Ltac red_obj :=
  cbn [mbind result_bind mret result_ret
       dt c_speed L Nx num_force_points force_locations force_width dx x_mesh
       C C2 height height_n height_nm1 height_traj action_traj t n force_vals
       set_height set_height_n set_height_nm1 set_t set_n set_force_vals].

Tactic Notation "inv_bind" hyp(H) "as" ident(a) ident(Ha) :=
  apply bind_Ok in H; destruct H as (a & Ha & H).

Lemma py_range_nil (lo hi : Z) : hi <= lo -> py_range lo hi = [].
Proof.
  intros Hle. unfold py_range.
  replace (Z.to_nat (hi - lo)) with 0%nat by lia. reflexivity.
Qed.

Lemma py_range_cons (lo hi : Z) :
  lo < hi -> py_range lo hi = lo :: py_range (lo + 1) hi.
Proof.
  intros Hlt. unfold py_range.
  replace (Z.to_nat (hi - lo)) with (S (Z.to_nat (hi - (lo + 1)))) by lia.
  simpl. f_equal; [lia |].
  rewrite <- seq_shift, map_map.
  apply map_ext. intros k. lia.
Qed.

Lemma py_range_snoc (lo hi : Z) :
  lo <= hi -> py_range lo (hi + 1) = py_range lo hi ++ [hi].
Proof.
  intros Hle. unfold py_range.
  replace (Z.to_nat (hi + 1 - lo)) with (Z.to_nat (hi - lo) + 1)%nat by lia.
  rewrite seq_app, map_app. simpl. do 2 f_equal. lia.
Qed.

Lemma py_range_length (lo hi : Z) :
  length (py_range lo hi) = Z.to_nat (hi - lo).
Proof. unfold py_range. by rewrite length_map, length_seq. Qed.

Lemma py_range_lookup (lo hi : Z) (k : nat) :
  (k < Z.to_nat (hi - lo))%nat -> py_range lo hi !! k = Some (lo + Z.of_nat k).
Proof.
  intros Hk. unfold py_range.
  rewrite list_lookup_fmap, lookup_seq_lt by done. reflexivity.
Qed.

Lemma py_range_bounds (lo hi i : Z) :
  In i (py_range lo hi) <-> lo <= i < hi.
Proof.
  unfold py_range. rewrite in_map_iff. split.
  - intros (k & <- & Hk). apply in_seq in Hk. lia.
  - intros Hi. exists (Z.to_nat (i - lo)). split; [lia |].
    apply in_seq. lia.
Qed.

Section Access.
Context {F : Type} `{Scalar F}.

Lemma norm_index_nonneg (len : nat) (i : Z) :
  0 <= i < Z.of_nat len -> norm_index len i = Some (Z.to_nat i).
Proof.
  intros [H0 H1]. unfold norm_index.
  destruct (Z.leb_spec 0 i); [| lia].
  destruct (Z.ltb_spec i (Z.of_nat len)); [done | lia].
Qed.

Lemma norm_index_lt (len : nat) (i : Z) (k : nat) :
  norm_index len i = Some k -> (k < len)%nat.
Proof.
  unfold norm_index.
  destruct (Z.leb_spec 0 i).
  - destruct (Z.ltb_spec i (Z.of_nat len)); [| discriminate].
    intros [= <-]. lia.
  - destruct (Z.leb_spec 0 (Z.of_nat len + i)); [| discriminate].
    intros [= <-]. lia.
Qed.

Lemma getitem_lookup (a : list F) (i : Z) (v : F) :
  0 <= i -> a !! Z.to_nat i = Some v -> getitem a i = Ok v.
Proof.
  intros H0 Hv. unfold getitem.
  rewrite norm_index_nonneg, Hv; [done |].
  apply lookup_lt_Some in Hv. lia.
Qed.

Lemma getitem_Ok_inv (a : list F) (i : Z) (v : F) :
  0 <= i -> getitem a i = Ok v -> a !! Z.to_nat i = Some v.
Proof.
  intros H0. unfold getitem, norm_index.
  destruct (Z.leb_spec 0 i); [| lia].
  destruct (Z.ltb_spec i (Z.of_nat (length a))); [| discriminate].
  destruct (a !! Z.to_nat i); [congruence | discriminate].
Qed.

Lemma setitem_nonneg (a : list F) (i : Z) (v : F) :
  0 <= i < Z.of_nat (length a) -> setitem a i v = Ok (<[Z.to_nat i := v]> a).
Proof. intros Hi. unfold setitem. by rewrite norm_index_nonneg. Qed.

Lemma setitem_length (a a' : list F) (i : Z) (v : F) :
  setitem a i v = Ok a' -> length a' = length a.
Proof.
  unfold setitem. destruct (norm_index (length a) i); [| discriminate].
  intros [= <-]. apply length_insert.
Qed.

Lemma getitem_setitem (a a' : list F) (i : Z) (v : F) :
  setitem a i v = Ok a' -> getitem a' i = Ok v.
Proof.
  unfold setitem, getitem.
  destruct (norm_index (length a) i) as [k|] eqn:E; [| discriminate].
  intros [= <-]. rewrite length_insert, E.
  rewrite list_lookup_insert_eq; [done |]. by eapply norm_index_lt.
Qed.

Lemma setitem_setitem (a a' : list F) (i : Z) (u v : F) :
  setitem a i u = Ok a' ->
  exists k, norm_index (length a) i = Some k /\
            a' = <[k := u]> a /\ setitem a' i v = Ok (<[k := v]> a).
Proof.
  unfold setitem.
  destruct (norm_index (length a) i) as [k|] eqn:E; [| discriminate].
  intros [= <-]. exists k. rewrite length_insert, E.
  by rewrite list_insert_insert_eq.
Qed.

Lemma np_zeros_Ok (k : Z) :
  0 <= k -> np_zeros k = Ok (replicate (Z.to_nat k) zero).
Proof.
  intros Hk. unfold np_zeros. destruct (Z.ltb_spec k 0); [lia | done].
Qed.

Lemma np_zeros_inv (k : Z) (a : list F) :
  np_zeros k = Ok a -> 0 <= k /\ a = replicate (Z.to_nat k) zero.
Proof.
  unfold np_zeros. destruct (Z.ltb_spec k 0); [discriminate |].
  intros [= <-]. done.
Qed.

Lemma np_linspace_length (start stop : F) (num : Z) (a : list F) :
  np_linspace start stop num = Ok a -> 0 <= num /\ length a = Z.to_nat num.
Proof.
  unfold np_linspace. destruct (Z.ltb_spec num 0); [discriminate |].
  intros [= <-]. split; [done |].
  assert (Hlen : forall y : list F,
             length y = Z.to_nat num ->
             length (if 1 <? num then <[Z.to_nat (num - 1) := stop]> y else y)
             = Z.to_nat num).
  { intros y Hy. destruct (1 <? num); [by rewrite length_insert | done]. }
  apply Hlen. rewrite length_map.
  destruct (0 <? num - 1); [destruct (fis_zero _) |];
    by rewrite length_map, py_range_length, Z.sub_0_r.
Qed.

Lemma assign_all_same (dst src : list F) :
  length src = length dst -> assign_all dst src = Ok src.
Proof. intros Hl. unfold assign_all. by rewrite Hl, Nat.eqb_refl. Qed.

Lemma assign_all_length (dst src a : list F) :
  assign_all dst src = Ok a -> length a = length dst.
Proof.
  unfold assign_all. destruct (Nat.eqb_spec (length src) (length dst)).
  - by intros [= <-].
  - destruct src as [| x [| ? ?]]; try discriminate.
    intros [= <-]. by rewrite length_replicate.
Qed.

Lemma broadcast2_same (op : F -> F -> F) (a b : list F) :
  length a = length b -> broadcast2 op a b = Ok (zip_with op a b).
Proof. intros Hl. unfold broadcast2. by rewrite Hl, Nat.eqb_refl. Qed.

End Access.

(** ** Loops that fill an array *)

Definition fill {A : Type} (val : Z -> A) (idxs : list Z) (a : list A) : list A :=
  fold_left (fun acc i => <[Z.to_nat i := val i]> acc) idxs a.

Lemma fill_length {A : Type} (val : Z -> A) (idxs : list Z) (a : list A) :
  length (fill val idxs a) = length a.
Proof.
  unfold fill. revert a.
  induction idxs as [| i idxs IH]; intros a; simpl; [done |].
  by rewrite IH, length_insert.
Qed.

Lemma fill_lookup_other {A : Type} (val : Z -> A) (idxs : list Z) (a : list A)
    (j : nat) :
  (forall i, In i idxs -> Z.to_nat i <> j) ->
  fill val idxs a !! j = a !! j.
Proof.
  unfold fill. revert a.
  induction idxs as [| i idxs IH]; intros a Hout; simpl; [done |].
  rewrite IH.
  - apply list_lookup_insert_ne. apply Hout. by left.
  - intros i' Hi'. apply Hout. by right.
Qed.

Lemma fill_lookup_in {A : Type} (val : Z -> A) (idxs : list Z) (a : list A)
    (i : Z) :
  (forall i', In i' idxs -> 0 <= i') ->
  In i idxs -> (Z.to_nat i < length a)%nat ->
  fill val idxs a !! Z.to_nat i = Some (val i).
Proof.
  revert a. induction idxs as [| i0 idxs IH]; intros a Hpos Hin Hlt; [done |].
  change (fill val (i0 :: idxs) a)
    with (fill val idxs (<[Z.to_nat i0 := val i0]> a)).
  destruct (in_dec Z.eq_dec i idxs) as [Hrest | Hrest].
  - apply IH; [| done | by rewrite length_insert].
    intros i' Hi'. apply Hpos. by right.
  - destruct Hin as [-> | Hin]; [| done].
    rewrite fill_lookup_other.
    + by apply list_lookup_insert_eq.
    + intros i' Hi' Heq.
      assert (0 <= i') by (apply Hpos; by right).
      assert (0 <= i) by (apply Hpos; by left).
      apply Hrest. replace i with i' by lia. done.
Qed.

Lemma foldM_fill {S A : Type} (upd : list A -> S)
    (body : Z -> S -> result S) (val : Z -> A) (idxs : list Z) (len : nat) :
  (forall i a, In i idxs -> length a = len ->
     body i (upd a) = Ok (upd (<[Z.to_nat i := val i]> a))) ->
  forall a, length a = len ->
    foldM body idxs (upd a) = Ok (upd (fill val idxs a)).
Proof.
  induction idxs as [| i idxs IH]; intros Hbody a Ha; simpl; [done |].
  rewrite Hbody by (done || by left). simpl.
  apply IH; [| by rewrite length_insert].
  intros i' a' Hi' Ha'. apply Hbody; [by right | done].
Qed.

(** ** Shapes *)

Section Scheme.
Context {F : Type} `{Scalar F}.

(** The arrays of a constructed object keep the sizes [__init__] gave them. *)
Record shaped (w : Wave1D F) : Prop := {
  sh_Nx : 1 <= Nx w;
  sh_height : length (height w) = Z.to_nat (Nx w + 1);
  sh_height_n : length (height_n w) = Z.to_nat (Nx w + 1);
  sh_height_nm1 : length (height_nm1 w) = Z.to_nat (Nx w + 1);
  sh_x_mesh : length (x_mesh w) = Z.to_nat (Nx w + 1);
  sh_nfp : 0 <= num_force_points w;
  sh_locs : length (force_locations w) = Z.to_nat (num_force_points w)
}.

(** Two one-dimensional shapes that numpy broadcasts together. *)
Definition shapes_agree (a b : list F) : bool :=
  (length a =? length b)%nat || (length a =? 1)%nat || (length b =? 1)%nat.

(** [a[i]] for an index known to be in range. *)
Definition item (a : list F) (i : Z) : F := default zero (a !! Z.to_nat i).

(** The value of [impulse_term(x)] when it returns. *)
Definition impulse_val (w : Wave1D F) (x : F) : F :=
  match impulse_term w x with
  | Ok v => v
  | Raise _ => zero
  end.

Lemma getitem_item (a : list F) (i : Z) :
  0 <= i < Z.of_nat (length a) -> getitem a i = Ok (item a i).
Proof.
  intros Hi. unfold item.
  destruct (lookup_lt_is_Some_2 a (Z.to_nat i)) as [v Hv]; [lia |].
  rewrite Hv. simpl. apply getitem_lookup; [lia | done].
Qed.

Lemma item_lookup (a : list F) (i : Z) :
  0 <= i < Z.of_nat (length a) -> a !! Z.to_nat i = Some (item a i).
Proof.
  intros Hi. unfold item.
  destruct (lookup_lt_is_Some_2 a (Z.to_nat i)) as [v Hv]; [lia |].
  by rewrite Hv.
Qed.

Lemma broadcast2_agree (op : F -> F -> F) (a b : list F) :
  is_ok (broadcast2 op a b) = shapes_agree a b.
Proof.
  unfold broadcast2, shapes_agree.
  destruct (Nat.eqb_spec (length a) (length b)); [done |].
  destruct a as [| x [| x' a]], b as [| y [| y' b]]; simpl in *; done.
Qed.

Lemma gaussians_length (w : Wave1D F) (x : F) :
  length (gaussians w x) = length (force_locations w).
Proof. unfold gaussians. by rewrite !length_map. Qed.

Lemma shapes_agree_length (a b b' : list F) :
  length b = length b' -> shapes_agree a b = shapes_agree a b'.
Proof. intros Hb. unfold shapes_agree. by rewrite Hb. Qed.

Lemma impulse_term_cases (w : Wave1D F) (x : F) :
  impulse_term w x =
    if shapes_agree (force_vals w) (force_locations w)
    then Ok (impulse_val w x) else Raise ValueError.
Proof.
  rewrite <- (shapes_agree_length _ (gaussians w x)) by apply gaussians_length.
  rewrite <- (broadcast2_agree fmul).
  unfold impulse_val, impulse_term.
  destruct (broadcast2 fmul (force_vals w) (gaussians w x)) as [p | e] eqn:E;
    simpl; [done |].
  unfold broadcast2 in E.
  destruct (_ =? _)%nat; [discriminate |].
  destruct (force_vals w) as [| ? [| ? ?]], (gaussians w x) as [| ? [| ? ?]];
    simpl in E; congruence.
Qed.

Lemma impulse_term_matched (w : Wave1D F) (x : F) :
  length (force_vals w) = length (force_locations w) ->
  impulse_term w x = Ok (np_sum (zip_with fmul (force_vals w) (gaussians w x))).
Proof.
  intros Hl. unfold impulse_term.
  rewrite broadcast2_same by (by rewrite gaussians_length). done.
Qed.

(** ** The bodies of the three loops *)

(** What one pass of the loop of [single_step] stores at [i], given the
    impulse there. *)
Definition leapfrog (w : Wave1D F) (i : Z) (imp : F) : F :=
  fadd (fadd (fadd (fneg (item (height_nm1 w) i))
                   (fmul two (item (height_n w) i)))
             (fmul (C2 w)
                   (fadd (fsub (item (height_n w) (i - 1))
                               (fmul two (item (height_n w) i)))
                         (item (height_n w) (i + 1)))))
       (fmul (pow2 (dt w)) imp).

(** The same for the special first step of [reset]. *)
Definition first_step (w : Wave1D F) (i : Z) (imp : F) : F :=
  fadd (fadd (fadd (item (height_n w) i)
                   (fmul (dt w) (Velocity_0 (item (x_mesh w) i))))
             (fmul (fmul half (C2 w))
                   (fadd (fsub (item (height_n w) (i - 1))
                               (fmul two (item (height_n w) i)))
                         (item (height_n w) (i + 1)))))
       (fmul (fmul half (pow2 (dt w))) imp).

Lemma setitem_twice (a : list F) (i : Z) (u : F) :
  0 <= i < Z.of_nat (length a) ->
  setitem a i u = Ok (<[Z.to_nat i := u]> a) /\
  getitem (<[Z.to_nat i := u]> a) i = Ok u /\
  forall v, setitem (<[Z.to_nat i := u]> a) i v = Ok (<[Z.to_nat i := v]> a).
Proof.
  intros Hi. split; [by apply setitem_nonneg |]. split.
  - apply getitem_lookup; [lia |]. apply list_lookup_insert_eq. lia.
  - intros v. rewrite setitem_nonneg by (rewrite length_insert; lia).
    by rewrite list_insert_insert_eq.
Qed.

Lemma step_body_eq (w : Wave1D F) (i : Z) (a : list F) :
  length a = Z.to_nat (Nx w + 1) ->
  length (height_n w) = Z.to_nat (Nx w + 1) ->
  length (height_nm1 w) = Z.to_nat (Nx w + 1) ->
  length (x_mesh w) = Z.to_nat (Nx w + 1) ->
  1 <= i < Nx w ->
  step_body i (set_height w a) =
    imp ← impulse_term w (item (x_mesh w) i);
    Ok (set_height w (<[Z.to_nat i := leapfrog w i imp]> a)).
Proof.
  intros Ha Hn Hm Hx Hi. unfold step_body. simpl.
  rewrite !getitem_item by lia. simpl.
  destruct (setitem_twice a i (fadd (fneg (item (height_nm1 w) i))
                                    (fmul two (item (height_n w) i))))
    as (-> & Hg & Hs); [lia |].
  simpl. rewrite Hg. simpl. rewrite Hs. simpl.
  rewrite (proj1 (proj2 (setitem_twice a i _ ltac:(lia)))). simpl.
  change (impulse_term (set_height _ _) (item (x_mesh w) i))
    with (impulse_term w (item (x_mesh w) i)).
  destruct (impulse_term w (item (x_mesh w) i)) as [imp | e]; simpl; [| done].
  rewrite (proj2 (proj2 (setitem_twice a i _ ltac:(lia)))). done.
Qed.

Lemma reset_step_body_eq (w : Wave1D F) (i : Z) (a : list F) :
  length a = Z.to_nat (Nx w + 1) ->
  length (height_n w) = Z.to_nat (Nx w + 1) ->
  length (x_mesh w) = Z.to_nat (Nx w + 1) ->
  1 <= i < Nx w ->
  reset_step_body i (set_height w a) =
    imp ← impulse_term w (item (x_mesh w) i);
    Ok (set_height w (<[Z.to_nat i := first_step w i imp]> a)).
Proof.
  intros Ha Hn Hx Hi. unfold reset_step_body. simpl.
  rewrite !getitem_item by lia. simpl.
  destruct (setitem_twice a i
              (fadd (item (height_n w) i)
                    (fmul (dt w) (Velocity_0 (item (x_mesh w) i)))))
    as (-> & Hg & Hs); [lia |].
  simpl. rewrite Hg. simpl. rewrite Hs. simpl.
  rewrite (proj1 (proj2 (setitem_twice a i _ ltac:(lia)))). simpl.
  change (impulse_term (set_height _ _) (item (x_mesh w) i))
    with (impulse_term w (item (x_mesh w) i)).
  destruct (impulse_term w (item (x_mesh w) i)) as [imp | e]; simpl; [| done].
  rewrite (proj2 (proj2 (setitem_twice a i _ ltac:(lia)))). done.
Qed.

Lemma reset_init_body_eq (w : Wave1D F) (i : Z) (a : list F) :
  length a = Z.to_nat (Nx w + 1) ->
  length (x_mesh w) = Z.to_nat (Nx w + 1) ->
  0 <= i < Nx w + 1 ->
  reset_init_body i (set_height_n w a) =
    Ok (set_height_n w (<[Z.to_nat i := zero]> a)).
Proof.
  intros Ha Hx Hi. unfold reset_init_body. simpl.
  rewrite getitem_item by lia. simpl.
  rewrite setitem_nonneg by lia. done.
Qed.

End Scheme.

(** ** The methods in closed form *)

Section Methods.
Context {F : Type} `{Scalar F}.

Lemma set_height_id (w : Wave1D F) : set_height w (height w) = w.
Proof. by destruct w. Qed.

Lemma set_height_n_id (w : Wave1D F) : set_height_n w (height_n w) = w.
Proof. by destruct w. Qed.

(** The two boundary assignments [a[0] = 0; a[Nx] = 0]. *)
Definition boundary (a : list F) (N : Z) : list F :=
  <[Z.to_nat N := zero]> (<[0%nat := zero]> a).

Lemma boundary_length (a : list F) (N : Z) :
  length (boundary a N) = length a.
Proof. unfold boundary. by rewrite !length_insert. Qed.

Lemma boundary_first (a : list F) (N : Z) :
  (0 < length a)%nat -> boundary a N !! 0%nat = Some zero.
Proof.
  intros Hl. unfold boundary.
  destruct (decide (Z.to_nat N = 0%nat)) as [-> | Hne].
  - apply list_lookup_insert_eq. by rewrite length_insert.
  - rewrite list_lookup_insert_ne by done. by apply list_lookup_insert_eq.
Qed.

Lemma boundary_last (a : list F) (N : Z) :
  (Z.to_nat N < length a)%nat -> boundary a N !! Z.to_nat N = Some zero.
Proof.
  intros Hl. unfold boundary. apply list_lookup_insert_eq.
  by rewrite length_insert.
Qed.

Lemma boundary_interior (a : list F) (N : Z) (k : nat) :
  k <> 0%nat -> k <> Z.to_nat N -> boundary a N !! k = a !! k.
Proof.
  intros H0 HN. unfold boundary. by rewrite !list_lookup_insert_ne.
Qed.

Lemma force_boundary_and_switch_eq (w : Wave1D F) :
  1 <= Nx w ->
  length (height w) = Z.to_nat (Nx w + 1) ->
  length (height_n w) = Z.to_nat (Nx w + 1) ->
  length (height_nm1 w) = Z.to_nat (Nx w + 1) ->
  force_boundary_and_switch w =
    Ok (set_height_n
          (set_height_nm1 (set_height w (boundary (height w) (Nx w)))
                          (height_n w))
          (boundary (height w) (Nx w))).
Proof.
  intros HN Hh Hn Hm. unfold force_boundary_and_switch.
  rewrite setitem_nonneg by lia. red_obj.
  rewrite setitem_nonneg by (rewrite length_insert; lia). red_obj.
  rewrite (assign_all_same (height_nm1 w) (height_n w)) by congruence.
  red_obj.
  rewrite assign_all_same by (rewrite !length_insert; congruence). done.
Qed.

(** What the loop of [single_step] leaves in [height]. *)
Definition leapfrog_heights (w : Wave1D F) : list F :=
  fill (fun i => leapfrog w i (impulse_val w (item (x_mesh w) i)))
       (py_range 1 (Nx w)) (height w).

(** The object after [single_step()], when it returns. *)
Definition stepped (w : Wave1D F) : Wave1D F :=
  let a := boundary (leapfrog_heights w) (Nx w) in
  set_height_n
    (set_height_nm1
       (set_height (set_n (set_t w (fadd (t w) (dt w))) (n w + 1)) a)
       (height_n w))
    a.

Lemma step_loop (w : Wave1D F) :
  shaped w ->
  for_range 1 (Nx w) step_body w =
    if (Nx w <? 2) || shapes_agree (force_vals w) (force_locations w)
    then Ok (set_height w (leapfrog_heights w))
    else Raise ValueError.
Proof.
  intros [HN Hh Hn Hm Hx _ _]. unfold for_range.
  destruct (Z.ltb_spec (Nx w) 2) as [Hsmall | Hbig]; simpl.
  - unfold leapfrog_heights. rewrite py_range_nil by lia. simpl.
    by rewrite set_height_id.
  - destruct (shapes_agree (force_vals w) (force_locations w)) eqn:Hag.
    + pose proof (foldM_fill (set_height w) step_body
                    (fun i => leapfrog w i (impulse_val w (item (x_mesh w) i)))
                    (py_range 1 (Nx w)) (Z.to_nat (Nx w + 1))) as E.
      specialize (fun Hb => E Hb (height w) Hh).
      rewrite set_height_id in E. apply E.
      intros i a Hi Ha. apply py_range_bounds in Hi.
      rewrite step_body_eq by done.
      by rewrite impulse_term_cases, Hag.
    + rewrite py_range_cons by lia. cbn [foldM].
      pose proof (step_body_eq w 1 (height w)) as E.
      rewrite set_height_id in E. rewrite E by (done || lia).
      by rewrite impulse_term_cases, Hag.
Qed.

Lemma single_step_cases (w : Wave1D F) :
  shaped w ->
  single_step w =
    if (Nx w <? 2) || shapes_agree (force_vals w) (force_locations w)
    then Ok (stepped w) else Raise ValueError.
Proof.
  intros Hw. unfold single_step.
  pose (w1 := set_n (set_t w (fadd (t w) (dt w))) (n w + 1)).
  assert (Hw1 : shaped w1) by (by destruct Hw).
  change (for_range 1 (Nx w1) step_body w1 ≫= force_boundary_and_switch
          = if (Nx w1 <? 2) || shapes_agree (force_vals w1) (force_locations w1)
            then Ok (stepped w) else Raise ValueError).
  rewrite (step_loop w1 Hw1).
  destruct ((Nx w1 <? 2) || shapes_agree (force_vals w1) (force_locations w1));
    [| done].
  simpl. destruct Hw.
  rewrite force_boundary_and_switch_eq; simpl;
    unfold leapfrog_heights; rewrite ?fill_length; done.
Qed.

Lemma stepped_height (w : Wave1D F) :
  height (stepped w) = boundary (leapfrog_heights w) (Nx w).
Proof. reflexivity. Qed.

Lemma impulse_term_frame (w w' : Wave1D F) (x : F) :
  force_vals w = force_vals w' ->
  force_locations w = force_locations w' ->
  force_width w = force_width w' ->
  impulse_term w x = impulse_term w' x.
Proof.
  intros Hv Hl Hw. unfold impulse_term, gaussians. by rewrite Hv, Hl, Hw.
Qed.

Lemma impulse_val_frame (w w' : Wave1D F) (x : F) :
  force_vals w = force_vals w' ->
  force_locations w = force_locations w' ->
  force_width w = force_width w' ->
  impulse_val w x = impulse_val w' x.
Proof.
  intros Hv Hl Hw. unfold impulse_val.
  by rewrite (impulse_term_frame w w').
Qed.

Lemma stepped_shaped (w : Wave1D F) : shaped w -> shaped (stepped w).
Proof.
  intros []. split; simpl; try done;
    unfold leapfrog_heights; by rewrite boundary_length, fill_length.
Qed.

(** The object [reset] works on once [t], [n], [force_vals] and [height_n]
    have been cleared. *)
Definition cleared (w : Wave1D F) : Wave1D F :=
  set_height_n
    (set_force_vals (set_n (set_t w zero) 0)
                    (replicate (Z.to_nat (num_force_points w)) zero))
    (replicate (Z.to_nat (Nx w + 1)) zero).

(** What the second loop of [reset] leaves in [height]. *)
Definition first_heights (w : Wave1D F) : list F :=
  fill (fun i => first_step (cleared w) i
                   (impulse_val (cleared w) (item (x_mesh w) i)))
       (py_range 1 (Nx w)) (height w).

(** The object after [reset()]. *)
Definition rested (w : Wave1D F) : Wave1D F :=
  let a := boundary (first_heights w) (Nx w) in
  set_height_n
    (set_height_nm1 (set_height (cleared w) a)
                    (replicate (Z.to_nat (Nx w + 1)) zero))
    a.

Lemma fill_all (val : F) (a : list F) (N : Z) :
  length a = Z.to_nat N ->
  fill (fun _ => val) (py_range 0 N) a = replicate (Z.to_nat N) val.
Proof.
  intros Ha. apply list_eq. intros k.
  destruct (decide (k < Z.to_nat N)%nat) as [Hk | Hk].
  - rewrite lookup_replicate_2 by done.
    replace k with (Z.to_nat (Z.of_nat k)) by lia.
    apply (fill_lookup_in (fun _ => val)).
    + intros i Hi. apply py_range_bounds in Hi. lia.
    + apply py_range_bounds. lia.
    + lia.
  - rewrite !lookup_ge_None_2; [done | |].
    + rewrite length_replicate. lia.
    + rewrite fill_length. lia.
Qed.

Lemma reset_eq (w : Wave1D F) : shaped w -> reset w = Ok (rested w).
Proof.
  intros [HN Hh Hn Hm Hx Hp Hl]. unfold reset.
  rewrite np_zeros_Ok by done. red_obj.
  pose (w1 := set_force_vals (set_n (set_t w zero) 0)
                (replicate (Z.to_nat (num_force_points w)) zero)).
  assert (E1 : for_range 0 (Nx w1 + 1) reset_init_body w1 = Ok (cleared w)).
  { pose proof (foldM_fill (set_height_n w1) reset_init_body (fun _ => zero)
                  (py_range 0 (Nx w + 1)) (Z.to_nat (Nx w + 1))) as E.
    specialize (fun Hb => E Hb (height_n w) Hn).
    rewrite fill_all in E by done. apply E.
    intros i a Hi Ha. apply py_range_bounds in Hi.
    by apply reset_init_body_eq. }
  assert (E2 : for_range 1 (Nx w) reset_step_body (cleared w)
               = Ok (set_height (cleared w) (first_heights w))).
  { pose proof (foldM_fill (set_height (cleared w)) reset_step_body
                  (fun i => first_step (cleared w) i
                              (impulse_val (cleared w) (item (x_mesh w) i)))
                  (py_range 1 (Nx w)) (Z.to_nat (Nx w + 1))) as E.
    specialize (fun Hb => E Hb (height w) Hh). apply E.
    intros i a Hi Ha. apply py_range_bounds in Hi.
    rewrite reset_step_body_eq;
      [| done | cbn; by rewrite length_replicate | done | done].
    rewrite impulse_term_cases.
    unfold shapes_agree, cleared. red_obj.
    by rewrite length_replicate, Hl, Nat.eqb_refl. }
  change (for_range 0 (Nx w1 + 1) reset_init_body w1
          ≫= (fun w2 => for_range 1 (Nx w2) reset_step_body w2
                        ≫= force_boundary_and_switch) = Ok (rested w)).
  rewrite E1. cbn [mbind result_bind].
  change (Nx (cleared w)) with (Nx w). rewrite E2. cbn [mbind result_bind].
  rewrite force_boundary_and_switch_eq; cbn;
    unfold first_heights; rewrite ?fill_length, ?length_replicate; done.
Qed.

Lemma rested_shaped (w : Wave1D F) : shaped w -> shaped (rested w).
Proof.
  intros []. split; simpl; try done;
    unfold first_heights;
    by rewrite ?boundary_length, ?fill_length, ?length_replicate.
Qed.

Lemma py_slice_interior_length (a : list F) (k : Z) :
  0 <= k -> length a = Z.to_nat (k + 2) ->
  length (py_slice a 1 (k + 1)) = Z.to_nat k.
Proof.
  intros Hk Ha. unfold py_slice, clamp_index.
  destruct (Z.ltb_spec 1 0); [lia |].
  destruct (Z.ltb_spec (k + 1) 0); [lia |].
  rewrite length_take, length_drop. lia.
Qed.

(** [np.linspace] when it returns. *)
Definition linspace_val (start stop : F) (num : Z) : list F :=
  match np_linspace start stop num with
  | Ok a => a
  | Raise _ => []
  end.

Lemma np_linspace_Ok (start stop : F) (num : Z) :
  0 <= num -> np_linspace start stop num = Ok (linspace_val start stop num).
Proof.
  intros Hn. unfold linspace_val, np_linspace.
  destruct (Z.ltb_spec num 0); [lia | done].
Qed.

Lemma linspace_val_length (start stop : F) (num : Z) :
  0 <= num -> length (linspace_val start stop num) = Z.to_nat num.
Proof.
  intros Hn.
  by destruct (np_linspace_length start stop num _ (np_linspace_Ok _ _ _ Hn)).
Qed.

(** The object [__init__] has built when it calls [reset]. *)
Definition allocated (config : Config F) : Wave1D F :=
  let L_ := system_length config in
  let Nx_ := num_lattice_points config in
  let nfp := num_force_points_cfg config in
  let xm := linspace_val zero L_ (Nx_ + 1) in
  let C_ := fdiv (fmul (wave_speed config) (time_interval config))
                 (fdiv L_ (of_int Nx_)) in
  {| dt := time_interval config; c_speed := wave_speed config;
     L := L_; Nx := Nx_; num_force_points := nfp;
     force_locations := py_slice (linspace_val zero L_ (nfp + 2)) 1 (nfp + 1);
     force_width := fmul (force_width_cfg config) L_;
     dx := fsub (item xm 1) (item xm 0);
     x_mesh := xm; C := C_; C2 := pow2 C_;
     height := replicate (Z.to_nat (Nx_ + 1)) zero;
     height_n := replicate (Z.to_nat (Nx_ + 1)) zero;
     height_nm1 := replicate (Z.to_nat (Nx_ + 1)) zero;
     height_traj := []; action_traj := [];
     t := zero; n := 0; force_vals := [] |}.

(** The four tests of the model of [__init__]: when one of them fails the
    constructor raises. *)
Definition init_passes (config : Config F) : bool :=
  (1 <=? num_lattice_points config)
  && (0 <=? num_force_points_cfg config)
  && negb (fis_zero (of_int (num_lattice_points config)))
  && negb (fis_zero (fdiv (system_length config)
                          (of_int (num_lattice_points config)))).

Lemma allocated_shaped (config : Config F) :
  1 <= num_lattice_points config -> 0 <= num_force_points_cfg config ->
  shaped (allocated config).
Proof.
  intros HN Hp. split; cbn; rewrite ?length_replicate; try done.
  - apply linspace_val_length. lia.
  - apply py_slice_interior_length; [done |].
    apply linspace_val_length. lia.
Qed.

Lemma py_truediv_Ok_inv (a b q : F) :
  py_truediv a b = Ok q -> fis_zero b = false /\ q = fdiv a b.
Proof.
  unfold py_truediv. destruct (fis_zero b); [discriminate |].
  by intros [= <-].
Qed.

Lemma init_passes_Ok (config : Config F) :
  init_passes config = true -> init config = Ok (rested (allocated config)).
Proof.
  unfold init_passes. rewrite !andb_true_iff, !negb_true_iff.
  intros [[[HN Hp] Hz] Hd].
  apply Z.leb_le in HN. apply Z.leb_le in Hp.
  unfold init. cbv zeta.
  rewrite np_linspace_Ok by lia. red_obj.
  unfold py_truediv. rewrite Hz. red_obj.
  rewrite np_linspace_Ok by lia. red_obj.
  rewrite Hd. red_obj.
  rewrite !getitem_item by (rewrite linspace_val_length; lia). red_obj.
  rewrite np_zeros_Ok by lia. red_obj.
  apply (reset_eq (allocated config)). by apply allocated_shaped.
Qed.

Lemma init_Ok_passes (config : Config F) (w : Wave1D F) :
  init config = Ok w -> init_passes config = true.
Proof.
  unfold init. cbv zeta. intros E.
  inv_bind E as lin Elin. inv_bind E as dx0 Edx. inv_bind E as xm Exm.
  inv_bind E as C_ EC. inv_bind E as x1 Ex1. inv_bind E as x0 Ex0.
  inv_bind E as h Eh. inv_bind E as hn Ehn. inv_bind E as hm Ehm.
  unfold reset in E. inv_bind E as fv Efv.
  cbn [num_force_points set_n set_t] in Efv.
  apply py_truediv_Ok_inv in Edx as [Hz ->].
  apply py_truediv_Ok_inv in EC as [Hd _].
  apply np_linspace_length in Exm as [_ Hlen].
  unfold getitem in Ex1.
  destruct (norm_index (length xm) 1) as [k |] eqn:Ek; [| discriminate].
  unfold norm_index in Ek. cbn in Ek.
  destruct (Z.ltb_spec 1 (Z.of_nat (length xm))); [| discriminate].
  apply np_zeros_inv in Efv as [Hp _].
  unfold init_passes. rewrite Hz, Hd. cbn.
  rewrite !andb_true_r. apply andb_true_iff. split; apply Z.leb_le; lia.
Qed.

Lemma init_Ok_eq (config : Config F) (w : Wave1D F) :
  init config = Ok w -> w = rested (allocated config).
Proof.
  intros E. pose proof (init_Ok_passes _ _ E) as Hp.
  apply init_passes_Ok in Hp. congruence.
Qed.

Lemma init_passes_bounds (config : Config F) :
  init_passes config = true ->
  1 <= num_lattice_points config /\ 0 <= num_force_points_cfg config.
Proof.
  unfold init_passes. rewrite !andb_true_iff.
  intros [[[HN Hp] _] _]. split; by apply Z.leb_le.
Qed.

Lemma take_in_action_shaped (w w' : Wave1D F) (a : list F) :
  shaped w -> take_in_action w a = Ok w' -> shaped w'.
Proof. intros [] [= <-]. by split. Qed.

Lemma single_step_shaped (w w' : Wave1D F) :
  shaped w -> single_step w = Ok w' -> shaped w'.
Proof.
  intros Hw. rewrite single_step_cases by done.
  destruct (_ || _); [| discriminate].
  intros [= <-]. by apply stepped_shaped.
Qed.

Lemma reachable_shaped (config : Config F) (w : Wave1D F) :
  reachable config w -> shaped w.
Proof.
  induction 1 as [w E | w w' _ IH E | w w' _ IH E | w a w' _ IH E].
  - pose proof (init_Ok_passes _ _ E) as Hp.
    apply init_passes_bounds in Hp as [HN Hp].
    rewrite (init_Ok_eq _ _ E).
    by apply rested_shaped, allocated_shaped.
  - rewrite reset_eq in E by done. injection E as <-.
    by apply rested_shaped.
  - by eapply single_step_shaped.
  - by eapply take_in_action_shaped.
Qed.

End Methods.

(** ** Reading the arrays after a step *)

Section Reading.
Context {F : Type} `{Scalar F}.

Lemma stepped_interior (w : Wave1D F) (i : Z) :
  shaped w -> 1 <= i <= Nx w - 1 ->
  height (stepped w) !! Z.to_nat i
    = Some (leapfrog w i (impulse_val w (item (x_mesh w) i))).
Proof.
  intros [HN Hh _ _ _ _ _] Hi. cbn.
  rewrite boundary_interior by lia.
  unfold leapfrog_heights.
  apply (fill_lookup_in
           (fun i => leapfrog w i (impulse_val w (item (x_mesh w) i)))).
  - intros i' Hi'. apply py_range_bounds in Hi'. lia.
  - apply py_range_bounds. lia.
  - lia.
Qed.

Lemma stepped_boundary (w : Wave1D F) :
  shaped w ->
  height (stepped w) !! 0%nat = Some zero /\
  height (stepped w) !! Z.to_nat (Nx w) = Some zero.
Proof.
  intros [HN Hh _ _ _ _ _]. cbn. unfold leapfrog_heights. split.
  - apply boundary_first. rewrite fill_length. lia.
  - apply boundary_last. rewrite fill_length. lia.
Qed.

Lemma rested_boundary (w : Wave1D F) :
  shaped w ->
  height (rested w) !! 0%nat = Some zero /\
  height (rested w) !! Z.to_nat (Nx w) = Some zero.
Proof.
  intros [HN Hh _ _ _ _ _]. cbn. unfold first_heights. split.
  - apply boundary_first. rewrite fill_length. lia.
  - apply boundary_last. rewrite fill_length. lia.
Qed.

(** Both ends of an array of the mesh hold zero. *)
Definition dirichlet (N : Z) (a : list F) : Prop :=
  a !! 0%nat = Some zero /\ a !! Z.to_nat N = Some zero.

Lemma dirichlet_zeros (N : Z) :
  0 <= N -> dirichlet N (replicate (Z.to_nat (N + 1)) zero).
Proof. intros HN. split; apply lookup_replicate_2; lia. Qed.

Lemma get_observation_eq (w : Wave1D F) :
  shaped w ->
  get_observation w =
    Ok {| chan0 := height w; chan1 := height_n w; chan2 := height_nm1 w |}.
Proof.
  intros [HN Hh Hn Hm _ _ _]. unfold get_observation.
  rewrite np_zeros_Ok by lia. red_obj.
  rewrite !assign_all_same by (by rewrite length_replicate). done.
Qed.

End Reading.

(** * The claims *)

Section Claims.
Context {F : Type} `{Scalar F}.

(** C1.  In every state reached from a constructed object, [single_step]
    returns when [force_vals] has one entry per piston, and whenever it
    returns it has stored, at every interior index [i], the leapfrog value
    [-height_nm1[i] + 2*height_n[i]
     + C2*(height_n[i-1] - 2*height_n[i] + height_n[i+1])
     + dt**2 * impulse_term(x_mesh[i])]
    computed from the arrays as they were before the call; the two ends of
    [height] are zero, [height_nm1] is the old [height_n], [height_n] is the
    new [height], [t] has grown by [dt] and [n] by 1. *)
Theorem single_step_leapfrog (config : Config F) (w : Wave1D F) :
  reachable config w ->
  (length (force_vals w) = Z.to_nat (num_force_points w) ->
   is_ok (single_step w) = true) /\
  forall w', single_step w = Ok w' ->
    (forall i, 1 <= i <= Nx w - 1 ->
       exists hm hl hc hr xi imp,
         height_nm1 w !! Z.to_nat i = Some hm /\
         height_n w !! Z.to_nat (i - 1) = Some hl /\
         height_n w !! Z.to_nat i = Some hc /\
         height_n w !! Z.to_nat (i + 1) = Some hr /\
         x_mesh w !! Z.to_nat i = Some xi /\
         impulse_term w xi = Ok imp /\
         height w' !! Z.to_nat i =
           Some (fadd (fadd (fadd (fneg hm) (fmul two hc))
                            (fmul (C2 w) (fadd (fsub hl (fmul two hc)) hr)))
                      (fmul (pow2 (dt w)) imp))) /\
    height w' !! 0%nat = Some zero /\
    height w' !! Z.to_nat (Nx w) = Some zero /\
    height_nm1 w' = height_n w /\
    height_n w' = height w' /\
    t w' = fadd (t w) (dt w) /\
    n w' = n w + 1.
Proof.
  intros Hr. pose proof (reachable_shaped _ _ Hr) as Hw.
  rewrite single_step_cases by done. split.
  - intros Hl. unfold shapes_agree.
    rewrite Hl, (sh_locs _ Hw), Nat.eqb_refl. cbn.
    by rewrite orb_true_r.
  - intros w' E.
    destruct ((Nx w <? 2) || shapes_agree (force_vals w) (force_locations w))
      eqn:Hag; [| discriminate].
    injection E as <-.
    destruct (stepped_boundary w Hw) as [H0 HN].
    repeat split; try done.
    intros i Hi.
    assert (Hsh : shapes_agree (force_vals w) (force_locations w) = true).
    { destruct (Z.ltb_spec (Nx w) 2); [lia | done]. }
    destruct Hw as [HNx Hh Hn Hm Hx Hp Hl].
    exists (item (height_nm1 w) i), (item (height_n w) (i - 1)),
      (item (height_n w) i), (item (height_n w) (i + 1)),
      (item (x_mesh w) i), (impulse_val w (item (x_mesh w) i)).
    rewrite !item_lookup by lia.
    rewrite impulse_term_cases, Hsh.
    repeat split; try done.
    by apply stepped_interior.
Qed.

(** C2.  In every state reached from a constructed object by any sequence of
    [reset], [take_in_action] (with any vector) and [single_step] calls, the
    entries at index 0 and index [Nx] of [height], of [height_n] and of
    [height_nm1] are zero. *)
Theorem boundaries_stay_zero (config : Config F) (w : Wave1D F) :
  reachable config w ->
  dirichlet (Nx w) (height w) /\
  dirichlet (Nx w) (height_n w) /\
  dirichlet (Nx w) (height_nm1 w).
Proof.
  intros Hr. induction Hr as [w E | w w' Hr IH E | w w' Hr IH E | w a w' Hr IH E].
  - pose proof (init_passes_bounds _ (init_Ok_passes _ _ E)) as [HN Hp].
    rewrite (init_Ok_eq _ _ E).
    pose proof (rested_boundary _ (allocated_shaped config HN Hp)) as Hb.
    repeat split; try apply Hb.
    all: cbn; apply lookup_replicate_2; lia.
  - pose proof (reachable_shaped _ _ Hr) as Hw.
    rewrite reset_eq in E by done. injection E as <-.
    pose proof (rested_boundary _ Hw) as Hb.
    repeat split; try apply Hb.
    all: cbn; apply lookup_replicate_2; destruct Hw; lia.
  - pose proof (reachable_shaped _ _ Hr) as Hw.
    rewrite single_step_cases in E by done.
    destruct (_ || _); [| discriminate]. injection E as <-.
    pose proof (stepped_boundary _ Hw) as Hb.
    destruct IH as (_ & Hn & _).
    repeat split; try apply Hb; apply Hn.
  - injection E as <-. exact IH.
Qed.

End Claims.

(** ** Arithmetic: what holds in a ring *)

Lemma fill_ext {A : Type} (val val' : Z -> A) (idxs : list Z) (a : list A) :
  (forall i, In i idxs -> val i = val' i) ->
  fill val idxs a = fill val' idxs a.
Proof.
  unfold fill. revert a.
  induction idxs as [| i idxs IH]; intros a Hv; simpl; [done |].
  rewrite (Hv i) by (by left). apply IH.
  intros i' Hi'. apply Hv. by right.
Qed.

Lemma fill_fmap {A : Type} (f : A -> A) (val : Z -> A) (idxs : list Z)
    (a : list A) :
  f <$> fill val idxs a = fill (fun i => f (val i)) idxs (f <$> a).
Proof.
  unfold fill. revert a.
  induction idxs as [| i idxs IH]; intros a; simpl; [done |].
  by rewrite IH, list_fmap_insert.
Qed.

Section Arithmetic.
Context {F : Type} `{Scalar F}.
Hypothesis Fring :
  ring_theory (of_int 0) (of_int 1) fadd fmul fsub fneg (@eq F).

Add Ring F_ring : Fring.

Lemma fold_add_zeros (l : list F) :
  Forall (fun v => v = zero) l -> fold_left fadd l zero = zero.
Proof using Fring.
  induction 1 as [| v l -> _ IH]; simpl; [done |].
  replace (fadd zero zero) with zero by (unfold zero; ring). done.
Qed.

Lemma np_sum_zeros (l : list F) :
  Forall (fun v => v = zero) l -> np_sum l = zero.
Proof using Fring.
  intros Hl. destruct Hl as [| v l -> Hl]; [done |].
  by apply fold_add_zeros.
Qed.

Lemma zeros_times (k : nat) (g : list F) :
  Forall (fun v => v = zero) (zip_with fmul (replicate k zero) g).
Proof using Fring.
  revert g. induction k as [| k IH]; intros [| y g]; simpl; try constructor.
  - unfold zero. ring.
  - apply IH.
Qed.

Lemma impulse_cleared (w : Wave1D F) (x : F) :
  shaped w -> impulse_val (cleared w) x = zero.
Proof using Fring.
  intros Hw. unfold impulse_val.
  rewrite impulse_term_matched.
  - cbn [force_vals cleared set_height_n set_force_vals].
    apply np_sum_zeros, zeros_times.
  - cbn. rewrite length_replicate. by destruct Hw.
Qed.

Lemma item_zeros (k : nat) (i : Z) : item (replicate k zero) i = zero.
Proof.
  unfold item.
  destruct (replicate k zero !! Z.to_nat i) as [v |] eqn:E; [| done].
  apply lookup_replicate in E as [-> _]. done.
Qed.

Lemma first_step_cleared (w : Wave1D F) (i : Z) :
  first_step (cleared w) i zero = zero.
Proof using Fring.
  unfold first_step, Velocity_0.
  cbn [height_n x_mesh dt C2 cleared set_height_n set_force_vals set_n set_t].
  rewrite !item_zeros. unfold zero. ring.
Qed.

(** An array of the mesh that holds zero everywhere. *)
Definition flat (w : Wave1D F) : list F := replicate (Z.to_nat (Nx w + 1)) zero.

Lemma boundary_fill_zeros (a : list F) (N : Z) :
  1 <= N -> length a = Z.to_nat (N + 1) ->
  boundary (fill (fun _ => zero) (py_range 1 N) a) N
    = replicate (Z.to_nat (N + 1)) zero.
Proof.
  intros HN Ha. apply list_eq. intros k.
  destruct (decide (k < Z.to_nat (N + 1))%nat) as [Hk | Hk].
  - rewrite lookup_replicate_2 by done.
    destruct (decide (k = 0%nat)) as [-> | H0].
    { apply boundary_first. rewrite fill_length. lia. }
    destruct (decide (k = Z.to_nat N)) as [-> | H1].
    { apply boundary_last. rewrite fill_length. lia. }
    rewrite boundary_interior by done.
    replace k with (Z.to_nat (Z.of_nat k)) by lia.
    apply (fill_lookup_in (fun _ => zero)).
    + intros i Hi. apply py_range_bounds in Hi. lia.
    + apply py_range_bounds. lia.
    + lia.
  - rewrite !lookup_ge_None_2; [done | |].
    + rewrite length_replicate. lia.
    + rewrite boundary_length, fill_length. lia.
Qed.

(** The rest configuration: the three arrays flat, no force, [t = 0],
    [n = 0]. *)
Definition at_rest (w : Wave1D F) : Wave1D F :=
  set_height_n
    (set_height_nm1
       (set_height
          (set_force_vals (set_n (set_t w zero) 0)
             (replicate (Z.to_nat (num_force_points w)) zero))
          (flat w))
       (flat w))
    (flat w).

Lemma rested_at_rest (w : Wave1D F) : shaped w -> rested w = at_rest w.
Proof using Fring.
  intros Hw.
  assert (E : boundary (first_heights w) (Nx w) = flat w).
  { unfold first_heights.
    rewrite (fill_ext _ (fun _ => zero)).
    - apply boundary_fill_zeros; by destruct Hw.
    - intros i _. rewrite impulse_cleared by done.
      apply first_step_cleared. }
  unfold rested. cbv zeta. rewrite E. reflexivity.
Qed.

(** The rest configuration of the object built from [config]. *)
Definition rest_of (config : Config F) : Wave1D F := at_rest (allocated config).

Lemma reachable_at_rest (config : Config F) (w : Wave1D F) :
  reachable config w -> at_rest w = rest_of config.
Proof.
  induction 1 as [w E | w w' Hr IH E | w w' Hr IH E | w a w' Hr IH E].
  - by rewrite (init_Ok_eq _ _ E).
  - rewrite reset_eq in E by (by eapply reachable_shaped).
    by injection E as <-.
  - rewrite single_step_cases in E by (by eapply reachable_shaped).
    destruct (_ || _); [| discriminate]. by injection E as <-.
  - by injection E as <-.
Qed.

Lemma reset_reachable (config : Config F) (w : Wave1D F) :
  reachable config w -> reset w = Ok (rest_of config).
Proof using Fring.
  intros Hr. pose proof (reachable_shaped _ _ Hr) as Hw.
  by rewrite reset_eq, rested_at_rest, (reachable_at_rest config).
Qed.

(** C4.  From every state reached from a constructed object, [reset()]
    returns and leaves the rest configuration of that object: [height],
    [height_n] and [height_nm1] zero at every mesh point, [force_vals] zero at
    every piston, [t = 0] and [n = 0].  The result is the same object
    whatever the state before, and a second [reset()] leaves it unchanged. *)
Theorem reset_is_rest (config : Config F) (w : Wave1D F) :
  reachable config w ->
  reset w = Ok (rest_of config) /\
  height (rest_of config)
    = replicate (Z.to_nat (num_lattice_points config + 1)) zero /\
  height_n (rest_of config)
    = replicate (Z.to_nat (num_lattice_points config + 1)) zero /\
  height_nm1 (rest_of config)
    = replicate (Z.to_nat (num_lattice_points config + 1)) zero /\
  force_vals (rest_of config)
    = replicate (Z.to_nat (num_force_points_cfg config)) zero /\
  t (rest_of config) = zero /\
  n (rest_of config) = 0 /\
  reset (rest_of config) = Ok (rest_of config) /\
  (reset w ≫= reset) = reset w.
Proof using Fring.
  intros Hr. pose proof (reset_reachable _ _ Hr) as E.
  assert (E' : reset (rest_of config) = Ok (rest_of config)).
  { apply reset_reachable. by eapply reach_reset. }
  repeat split; try done.
  by rewrite E.
Qed.

(** *** Negating the action *)

Lemma zip_with_neg (a g : list F) :
  zip_with fmul (fneg <$> a) g = fneg <$> zip_with fmul a g.
Proof using Fring.
  revert g. induction a as [| x a IH]; intros [| y g]; simpl; try done.
  rewrite IH. f_equal. ring.
Qed.

Lemma fold_add_neg (l : list F) (x : F) :
  fold_left fadd (fneg <$> l) (fneg x) = fneg (fold_left fadd l x).
Proof using Fring.
  revert x. induction l as [| y l IH]; intros x; simpl; [done |].
  rewrite <- IH. f_equal. ring.
Qed.

Lemma np_sum_neg (l : list F) : np_sum (fneg <$> l) = fneg (np_sum l).
Proof using Fring.
  destruct l as [| x l]; simpl.
  - unfold zero. ring.
  - apply fold_add_neg.
Qed.

Lemma impulse_val_neg (w : Wave1D F) (a : list F) (x : F) :
  length a = length (force_locations w) ->
  impulse_val (set_force_vals w (fneg <$> a)) x
    = fneg (impulse_val (set_force_vals w a) x).
Proof using Fring.
  intros Ha. unfold impulse_val.
  rewrite !impulse_term_matched by (cbn; by rewrite ?length_fmap).
  cbn [force_vals set_force_vals].
  change (gaussians (set_force_vals w _) x) with (gaussians w x).
  by rewrite zip_with_neg, np_sum_neg.
Qed.

Lemma leapfrog_at_rest (w : Wave1D F) (a : list F) (i : Z) (imp : F) :
  leapfrog (set_force_vals (at_rest w) a) i imp = fmul (pow2 (dt w)) imp.
Proof using Fring.
  unfold leapfrog, at_rest, flat. red_obj.
  rewrite !item_zeros. unfold zero. ring.
Qed.

Lemma boundary_neg (a : list F) (N : Z) :
  fneg <$> boundary a N = boundary (fneg <$> a) N.
Proof using Fring.
  unfold boundary. rewrite !list_fmap_insert.
  replace (fneg zero) with zero by (unfold zero; ring). done.
Qed.

Lemma flat_neg (w : Wave1D F) : fneg <$> flat w = flat w.
Proof using Fring.
  unfold flat. rewrite fmap_replicate.
  replace (fneg zero) with zero by (unfold zero; ring). done.
Qed.

Lemma step_from_rest (w : Wave1D F) (a : list F) :
  shaped w -> length a = length (force_locations w) ->
  single_step (set_force_vals (at_rest w) a)
    = Ok (stepped (set_force_vals (at_rest w) a)) /\
  height (stepped (set_force_vals (at_rest w) a))
    = boundary
        (fill (fun i => fmul (pow2 (dt w))
                          (impulse_val (set_force_vals w a)
                                       (item (x_mesh w) i)))
              (py_range 1 (Nx w)) (flat w))
        (Nx w).
Proof using Fring.
  intros Hw Ha. split.
  - rewrite single_step_cases.
    + unfold shapes_agree. cbn [force_vals force_locations set_force_vals
                                at_rest set_height set_height_n set_height_nm1
                                set_n set_t].
      by rewrite Ha, Nat.eqb_refl, orb_true_r.
    + destruct Hw. split; cbn; unfold flat; rewrite ?length_replicate; done.
  - rewrite stepped_height. unfold leapfrog_heights.
    cbn [height Nx x_mesh set_force_vals at_rest set_height set_height_n
         set_height_nm1 set_n set_t].
    f_equal. apply fill_ext. intros i _.
    rewrite leapfrog_at_rest. reflexivity.
Qed.

(** C8.  Start from the rest state that [reset()] leaves.  Applying a vector
    [a] with one entry per piston and taking one step, and applying its
    negation and taking one step, both return, and the second [height] array
    is the first one negated entry by entry. *)
Theorem negated_action_negates (config : Config F) (w0 : Wave1D F)
    (a : list F) :
  reachable config w0 ->
  length a = Z.to_nat (num_force_points_cfg config) ->
  exists w wp wm,
    reset w0 = Ok w /\
    (take_in_action w a ≫= single_step) = Ok wp /\
    (take_in_action w (fneg <$> a) ≫= single_step) = Ok wm /\
    height wm = fneg <$> height wp.
Proof using Fring.
  intros Hr Ha.
  pose proof (init_passes_bounds config) as Hb.
  assert (Hsh : shaped (allocated config)).
  { clear Ha. induction Hr; try done.
    apply allocated_shaped; apply Hb; by eapply init_Ok_passes. }
  assert (Hl : length a = length (force_locations (allocated config))).
  { by rewrite (sh_locs _ Hsh). }
  destruct (step_from_rest (allocated config) a Hsh Hl) as [Ep Hp].
  destruct (step_from_rest (allocated config) (fneg <$> a) Hsh) as [Em Hm].
  { by rewrite length_fmap. }
  exists (rest_of config),
    (stepped (set_force_vals (at_rest (allocated config)) a)),
    (stepped (set_force_vals (at_rest (allocated config)) (fneg <$> a))).
  split; [by apply reset_reachable |].
  unfold take_in_action, rest_of. cbn [mbind result_bind].
  split. { exact Ep. }
  split. { exact Em. }
  rewrite Hm, Hp, boundary_neg, fill_fmap, flat_neg.
  f_equal. apply fill_ext. intros i _.
  rewrite impulse_val_neg by done. ring.
Qed.

End Arithmetic.

(** ** What no method changes *)

Section Static.
Context {F : Type} `{Scalar F}.

(** The attributes set once by [__init__]. *)
Definition static (w : Wave1D F) :=
  (dt w, c_speed w, L w, Nx w, num_force_points w, force_locations w,
   force_width w, dx w, x_mesh w, C w, C2 w).

Lemma reachable_static (config : Config F) (w : Wave1D F) :
  reachable config w -> static w = static (allocated config).
Proof.
  induction 1 as [w E | w w' Hr IH E | w w' Hr IH E | w a w' Hr IH E].
  - by rewrite (init_Ok_eq _ _ E).
  - rewrite reset_eq in E by (by eapply reachable_shaped).
    by injection E as <-.
  - rewrite single_step_cases in E by (by eapply reachable_shaped).
    destruct (_ || _); [| discriminate]. by injection E as <-.
  - by injection E as <-.
Qed.

End Static.

(** ** The energy *)

Section EnergyClaim.
Context {F : Type} `{Scalar F}.
Variable np_gradient : list F -> list F -> result (list F).
Variable simps : list F -> list F -> result F.

(** What the program relies on: given as many samples as mesh points, at
    least two, both routines return, and the gradient has one entry per
    sample. *)
Hypothesis gradient_returns : forall f x : list F,
  length f = length x -> (2 <= length x)%nat ->
  exists g, np_gradient f x = Ok g /\ length g = length f.
Hypothesis simps_returns : forall y x : list F,
  length y = length x -> (2 <= length x)%nat ->
  exists s, simps y x = Ok s.

(** The density the program integrates, given the gradient [dudx]. *)
Definition energy_density (w : Wave1D F) (dudx : list F) : list F :=
  zip_with fadd
    (zip_with fadd
       (map pow2 (map (fun v => fdiv v (dt w))
                      (zip_with fsub (height w) (height_nm1 w))))
       (map (fun v => fmul (pow2 (C w)) v) (map pow2 dudx)))
    (map pow2 (height w)).

Lemma energy_density_length (w : Wave1D F) (dudx : list F) :
  shaped w -> length dudx = Z.to_nat (Nx w + 1) ->
  length (energy_density w dudx) = Z.to_nat (Nx w + 1).
Proof.
  intros [] Hg. unfold energy_density.
  rewrite !length_zip_with, !length_map, length_zip_with. lia.
Qed.

Lemma energy_eq (w : Wave1D F) :
  shaped w ->
  exists dudx s,
    np_gradient (height w) (x_mesh w) = Ok dudx /\
    length dudx = Z.to_nat (Nx w + 1) /\
    simps (energy_density w dudx) (x_mesh w) = Ok s /\
    energy np_gradient simps w = Ok (fmul half s).
Proof using gradient_returns simps_returns.
  intros Hw. pose proof Hw as [HN Hh Hn Hm Hx _ _].
  destruct (gradient_returns (height w) (x_mesh w)) as (dudx & Eg & Hg);
    [congruence | lia |].
  destruct (gradient_returns dudx (x_mesh w)) as (g2 & Eg2 & Hg2);
    [congruence | lia |].
  assert (Hd : length (energy_density w dudx) = Z.to_nat (Nx w + 1)).
  { apply energy_density_length; [done | congruence]. }
  destruct (simps_returns (energy_density w dudx) (x_mesh w)) as (s & Es);
    [congruence | lia |].
  exists dudx, s. repeat split; [done | congruence | done |].
  unfold energy.
  rewrite (broadcast2_same fsub (height w)) by congruence. red_obj.
  rewrite Eg. red_obj. rewrite Eg2. red_obj.
  rewrite (broadcast2_same fmul (map fneg (height w)))
    by (rewrite length_map; congruence).
  red_obj.
  rewrite broadcast2_same by (rewrite !length_map, length_zip_with; lia).
  red_obj. unfold inplace2.
  rewrite (proj2 (Nat.eqb_eq _ _)).
  2: { rewrite !length_zip_with, !length_map, length_zip_with. lia. }
  red_obj. fold (energy_density w dudx). rewrite Es. done.
Qed.

Lemma lookup_map {A B : Type} (f : A -> B) (l : list A) (k : nat) :
  map f l !! k = f <$> (l !! k).
Proof. exact (list_lookup_fmap f l k). Qed.

Lemma energy_density_lookup (w : Wave1D F) (dudx : list F) (k : nat)
    (h hm g : F) :
  height w !! k = Some h -> height_nm1 w !! k = Some hm ->
  dudx !! k = Some g ->
  energy_density w dudx !! k =
    Some (fadd (fadd (pow2 (fdiv (fsub h hm) (dt w)))
                     (fmul (pow2 (C w)) (pow2 g)))
               (pow2 h)).
Proof.
  intros Hh Hm Hg. unfold energy_density.
  rewrite !lookup_zip_with, !lookup_map, lookup_zip_with.
  rewrite Hh, Hm, Hg. reflexivity.
Qed.

(** C3.  In every state reached from a constructed object, [energy()]
    returns half of [simps(density, x_mesh)], where [density] has one entry
    per mesh point, [(height[k] - height_nm1[k])/dt] squared plus [C**2] times
    the square of entry [k] of [np.gradient(height, x_mesh)] plus [height[k]]
    squared; [C] is [wave_speed * time_interval / (system_length /
    num_lattice_points)]; the object after the call is the object before. *)
Theorem energy_half_simpson (config : Config F) (w : Wave1D F) :
  reachable config w ->
  exists dudx density s,
    np_gradient (height w) (x_mesh w) = Ok dudx /\
    length density = Z.to_nat (Nx w + 1) /\
    (forall (k : nat) (h hm g : F),
        height w !! k = Some h -> height_nm1 w !! k = Some hm ->
        dudx !! k = Some g ->
        density !! k =
          Some (fadd (fadd (pow2 (fdiv (fsub h hm) (dt w)))
                           (fmul (pow2 (C w)) (pow2 g)))
                     (pow2 h))) /\
    simps density (x_mesh w) = Ok s /\
    energy np_gradient simps w = Ok (fmul half s) /\
    exec np_gradient simps Energy w = Ok (VFloat (fmul half s), w) /\
    C w = fdiv (fmul (wave_speed config) (time_interval config))
               (fdiv (system_length config)
                     (of_int (num_lattice_points config))).
Proof using gradient_returns simps_returns.
  intros Hr. pose proof (reachable_shaped _ _ Hr) as Hw.
  destruct (energy_eq w Hw) as (dudx & s & Eg & Hg & Es & Ee).
  exists dudx, (energy_density w dudx), s.
  split; [done |]. split; [by apply energy_density_length |].
  split; [intros k h hm g; apply energy_density_lookup |].
  split; [done |]. split; [done |]. split.
  - cbn [exec]. rewrite Ee. done.
  - pose proof (reachable_static _ _ Hr) as Hs.
    unfold static in Hs. by injection Hs.
Qed.

End EnergyClaim.

(** ** What is checked, and when *)

Section Checks.
Context {F : Type} `{Scalar F}.

Lemma broadcast2_scalar_l (op : F -> F -> F) (v : F) (b : list F) :
  broadcast2 op [v] b = Ok (map (op v) b).
Proof.
  unfold broadcast2. destruct (Nat.eqb_spec (length [v]) (length b)) as [E |].
  - destruct b as [| y [| ? ?]]; try discriminate. done.
  - done.
Qed.

Lemma broadcast2_scalar_r (op : F -> F -> F) (a : list F) (g : F) :
  broadcast2 op a [g] = Ok (map (fun u => op u g) a).
Proof.
  unfold broadcast2. destruct (Nat.eqb_spec (length a) (length [g])) as [E |].
  - destruct a as [| y [| ? ?]]; try discriminate. done.
  - destruct a as [| y [| ? ?]]; done.
Qed.

Lemma shapes_disagree (a b : list F) :
  length a <> length b -> length a <> 1%nat -> length b <> 1%nat ->
  shapes_agree a b = false.
Proof.
  intros Hab Ha Hb. unfold shapes_agree.
  destruct (Nat.eqb_spec (length a) (length b)); [done |].
  destruct (Nat.eqb_spec (length a) 1); [done |].
  destruct (Nat.eqb_spec (length b) 1); done.
Qed.

(** C5, as the program has it.  [take_in_action] returns for every vector
    and stores it as [force_vals], whatever its length.  A vector whose
    length differs from [num_force_points] is refused only where the impulse
    is next evaluated, with numpy's [ValueError], and only when neither
    length is 1: [impulse_term] raises at every position, and so does
    [single_step] as soon as the mesh has an interior point.  A vector of
    length 1 is broadcast over all pistons, and with a single piston every
    vector is broadcast against it. *)
Theorem wrong_length_is_stored (config : Config F) (w : Wave1D F)
    (a : list F) :
  reachable config w ->
  length a <> Z.to_nat (num_force_points w) ->
  exists w',
    take_in_action w a = Ok w' /\
    force_vals w' = a /\
    (length a <> 1%nat -> num_force_points w <> 1 ->
       (forall x, impulse_term w' x = Raise ValueError) /\
       (2 <= Nx w -> single_step w' = Raise ValueError)) /\
    (forall v x, a = [v] ->
       impulse_term w' x = Ok (np_sum (map (fmul v) (gaussians w x)))) /\
    (forall g x, gaussians w x = [g] ->
       impulse_term w' x = Ok (np_sum (map (fun u => fmul u g) a))).
Proof.
  intros Hr Ha. pose proof (reachable_shaped _ _ Hr) as Hw.
  exists (set_force_vals w a). split; [done |]. split; [done |].
  assert (Hw' : shaped (set_force_vals w a)) by (by destruct Hw).
  pose proof (sh_locs _ Hw) as Hl. pose proof (sh_nfp _ Hw) as Hp.
  split; [| split].
  - intros H1 Hn1.
    assert (Hs : shapes_agree (force_vals (set_force_vals w a))
                   (force_locations (set_force_vals w a)) = false).
    { apply shapes_disagree; cbn; lia. }
    split.
    + intros x. by rewrite impulse_term_cases, Hs.
    + intros HN. rewrite single_step_cases by done. rewrite Hs.
      change (Nx (set_force_vals w a)) with (Nx w).
      destruct (Z.ltb_spec (Nx w) 2); [lia | done].
  - intros v x ->. unfold impulse_term. cbn [force_vals set_force_vals].
    change (gaussians (set_force_vals w [v]) x) with (gaussians w x).
    by rewrite broadcast2_scalar_l.
  - intros g x Hg. unfold impulse_term. cbn [force_vals set_force_vals].
    change (gaussians (set_force_vals w a) x) with (gaussians w x).
    by rewrite Hg, broadcast2_scalar_r.
Qed.

(** C6, as the program has it.  [__init__] validates nothing of its own,
    and a configuration is refused only where the arithmetic or numpy stops:
    when [num_lattice_points] is not positive, when [num_force_points] is
    negative, or when the spacing [system_length / num_lattice_points] is zero,
    the constructor raises and no object is built. *)
Theorem init_raises_on_bad_sizes (config : Config F) :
  num_lattice_points config <= 0 \/
  num_force_points_cfg config < 0 \/
  fis_zero (fdiv (system_length config) (of_int (num_lattice_points config)))
    = true ->
  exists e, init config = Raise e.
Proof.
  intros Hbad.
  destruct (init config) as [w | e] eqn:E; [| by exists e].
  exfalso. apply init_Ok_passes in E.
  unfold init_passes in E. rewrite !andb_true_iff, !negb_true_iff in E.
  destruct E as [[[HN Hp] _] Hd].
  apply Z.leb_le in HN. apply Z.leb_le in Hp.
  destruct Hbad as [Hbad | [Hbad | Hbad]]; [lia | lia | congruence].
Qed.

End Checks.

(** ** The pistons *)

Section Pistons.
Context {F : Type} `{Scalar F}.

(** Sample [k] of [np.linspace(start, stop, num)], the last one apart. *)
Definition sample (start stop : F) (num k : Z) : F :=
  let delta := fsub stop start in
  let step := fdiv delta (of_int (num - 1)) in
  fadd (if fis_zero step
        then fmul (fdiv (of_int k) (of_int (num - 1))) delta
        else fmul (of_int k) step)
       start.

Lemma linspace_val_lookup (start stop : F) (num : Z) (k : nat) :
  Z.of_nat k < num - 1 ->
  linspace_val start stop num !! k = Some (sample start stop num (Z.of_nat k)).
Proof.
  intros Hk. unfold linspace_val, np_linspace, sample.
  destruct (Z.ltb_spec num 0); [lia |].
  destruct (Z.ltb_spec 0 (num - 1)); [| lia].
  destruct (Z.ltb_spec 1 num); [| lia].
  rewrite list_lookup_insert_ne by lia.
  rewrite lookup_map.
  destruct (fis_zero (fdiv (fsub stop start) (of_int (num - 1))));
    rewrite lookup_map, py_range_lookup by lia; cbn;
    by rewrite Z.add_0_l.
Qed.

Lemma linspace_val_last (start stop : F) (num : Z) :
  1 < num -> linspace_val start stop num !! Z.to_nat (num - 1) = Some stop.
Proof.
  intros Hn. unfold linspace_val, np_linspace.
  destruct (Z.ltb_spec num 0); [lia |].
  destruct (Z.ltb_spec 1 num); [| lia].
  apply list_lookup_insert_eq. rewrite length_map.
  destruct (0 <? num - 1); [destruct (fis_zero _) |];
    rewrite length_map, py_range_length; lia.
Qed.

Lemma py_slice_interior_lookup (a : list F) (m : Z) (j : nat) :
  0 <= m -> length a = Z.to_nat (m + 2) -> Z.of_nat j < m ->
  py_slice a 1 (m + 1) !! j = a !! S j.
Proof.
  intros Hm Ha Hj. unfold py_slice, clamp_index.
  destruct (Z.ltb_spec 1 0); [lia |].
  destruct (Z.ltb_spec (m + 1) 0); [lia |].
  rewrite lookup_take_lt by lia. rewrite lookup_drop.
  f_equal. lia.
Qed.

(** The pistons of a constructed object are samples 1 to [num_force_points]
    of the [num_force_points + 2] samples of [linspace(0.0, L)]. *)
Lemma force_locations_lookup (config : Config F) (w : Wave1D F) (j : nat)
    (site : F) :
  reachable config w ->
  force_locations w !! j = Some site ->
  Z.of_nat j < num_force_points_cfg config /\
  linspace_val zero (system_length config) (num_force_points_cfg config + 2)
    !! S j = Some site /\
  site = sample zero (system_length config) (num_force_points_cfg config + 2)
                (Z.of_nat j + 1).
Proof.
  intros Hr Hj.
  pose proof (reachable_static _ _ Hr) as Hs. unfold static in Hs.
  injection Hs as _ _ _ _ Hn Hloc _ _ _ _ _.
  pose proof (reachable_shaped _ _ Hr) as [_ _ _ _ _ Hp Hl].
  cbn in Hn. rewrite Hn in *.
  assert (Hlt : Z.of_nat j < num_force_points_cfg config).
  { apply lookup_lt_Some in Hj. lia. }
  split; [done |].
  rewrite Hloc in Hj. cbn [force_locations allocated] in Hj.
  rewrite py_slice_interior_lookup in Hj;
    [| done | apply linspace_val_length; lia | done].
  split; [done |].
  rewrite linspace_val_lookup in Hj by lia.
  injection Hj as <-. f_equal. lia.
Qed.

(** The terms of the sum in [impulse_term(x)]. *)
Definition impulse_terms (w : Wave1D F) (x : F) : list F :=
  zip_with fmul (force_vals w) (gaussians w x).

Lemma impulse_terms_lookup (w : Wave1D F) (x : F) (j : nat) (v site : F) :
  force_vals w !! j = Some v -> force_locations w !! j = Some site ->
  impulse_terms w x !! j =
    Some (fmul v (fexp (fdiv (fmul (fneg half) (pow2 (fsub x site)))
                             (force_width w)))).
Proof.
  intros Hv Hs. unfold impulse_terms, gaussians.
  rewrite lookup_zip_with, !lookup_map, Hv, Hs. reflexivity.
Qed.

(** *** Where the pistons are, in an ordered field *)

Variable lt : F -> F -> Prop.

Record ordered_laws : Prop := {
  ol_ring : ring_theory (of_int 0) (of_int 1) fadd fmul fsub fneg (@eq F);
  ol_div : forall a b : F, b <> of_int 0 -> fmul (fdiv a b) b = a;
  ol_is_zero : forall a : F, fis_zero a = true <-> a = of_int 0;
  ol_of_int_add : forall a b : Z, of_int (a + b) = fadd (of_int a) (of_int b);
  ol_irrefl : forall a : F, ~ lt a a;
  ol_trans : forall a b c : F, lt a b -> lt b c -> lt a c;
  ol_total : forall a b : F, lt a b \/ a = b \/ lt b a;
  ol_add : forall a b c : F, lt a b -> lt (fadd a c) (fadd b c);
  ol_mul : forall a b : F,
      lt (of_int 0) a -> lt (of_int 0) b -> lt (of_int 0) (fmul a b);
  ol_one : lt (of_int 0) (of_int 1)
}.

Hypothesis laws : ordered_laws.

Add Ring F_ordered_ring : (ol_ring laws).

Lemma of_int_pos (k : Z) : 0 < k -> lt (of_int 0) (of_int k).
Proof using laws.
  intros Hk. replace k with (Z.of_nat (Z.to_nat (k - 1)) + 1) by lia.
  induction (Z.to_nat (k - 1)) as [| m IH].
  - apply (ol_one laws).
  - replace (Z.of_nat (S m) + 1) with ((Z.of_nat m + 1) + 1) by lia.
    rewrite (ol_of_int_add laws).
    apply (ol_trans laws _ (of_int (Z.of_nat m + 1))); [done |].
    pose proof (ol_add laws _ _ (of_int (Z.of_nat m + 1)) (ol_one laws)) as E.
    replace (fadd (of_int 0) (of_int (Z.of_nat m + 1)))
      with (of_int (Z.of_nat m + 1)) in E by ring.
    replace (fadd (of_int 1) (of_int (Z.of_nat m + 1)))
      with (fadd (of_int (Z.of_nat m + 1)) (of_int 1)) in E by ring.
    done.
Qed.

Lemma lt_neg (a : F) : lt a (of_int 0) -> lt (of_int 0) (fneg a).
Proof using laws.
  intros Ha. pose proof (ol_add laws _ _ (fneg a) Ha) as E.
  replace (fadd a (fneg a)) with (of_int 0) in E by ring.
  replace (fadd (of_int 0) (fneg a)) with (fneg a) in E by ring.
  done.
Qed.

Lemma quotient_pos (a d : F) :
  lt (of_int 0) a -> lt (of_int 0) d -> lt (of_int 0) (fdiv a d).
Proof using laws.
  intros Ha Hd.
  assert (Hd0 : d <> of_int 0).
  { intros ->. by apply (ol_irrefl laws (of_int 0)). }
  pose proof (ol_div laws a d Hd0) as E.
  destruct (ol_total laws (of_int 0) (fdiv a d)) as [Hq | [Hq | Hq]]; [done | |].
  - exfalso. rewrite <- Hq in E.
    replace (fmul (of_int 0) d) with (of_int 0) in E by ring.
    rewrite <- E in Ha. by apply (ol_irrefl laws (of_int 0)).
  - exfalso. apply lt_neg in Hq.
    pose proof (ol_mul laws _ _ Hq Hd) as Hm.
    replace (fmul (fneg (fdiv a d)) d) with (fneg (fmul (fdiv a d) d)) in Hm
      by ring.
    rewrite E in Hm.
    pose proof (ol_add laws _ _ a Hm) as Hm'.
    replace (fadd (of_int 0) a) with a in Hm' by ring.
    replace (fadd (fneg a) a) with (of_int 0) in Hm' by ring.
    apply (ol_irrefl laws (of_int 0)). by apply (ol_trans laws _ a).
Qed.

Lemma sample_inside (stop : F) (num k : Z) :
  lt (of_int 0) stop -> 0 < k < num - 1 ->
  sample zero stop num k
    = fadd (fmul (of_int k) (fdiv (fsub stop zero) (of_int (num - 1)))) zero /\
  lt zero (sample zero stop num k) /\
  lt (sample zero stop num k) stop.
Proof using laws.
  intros HL Hk. unfold zero.
  set (d := of_int (num - 1)).
  set (s := fdiv (fsub stop (of_int 0)) d).
  assert (Hd : lt (of_int 0) d) by (apply of_int_pos; lia).
  assert (Hd0 : d <> of_int 0).
  { intros E. rewrite E in Hd. by apply (ol_irrefl laws (of_int 0)). }
  assert (Hs : lt (of_int 0) s).
  { apply quotient_pos; [| done].
    replace (fsub stop (of_int 0)) with stop by ring. done. }
  assert (Hz : fis_zero s = false).
  { destruct (fis_zero s) eqn:E; [| done].
    apply (ol_is_zero laws) in E. rewrite E in Hs.
    by destruct (ol_irrefl laws (of_int 0)). }
  assert (Es : sample (of_int 0) stop num k
               = fadd (fmul (of_int k) s) (of_int 0)).
  { unfold sample. cbv zeta. fold d. fold s. by rewrite Hz. }
  rewrite Es. split; [done |].
  replace (fadd (fmul (of_int k) s) (of_int 0)) with (fmul (of_int k) s)
    by ring.
  split.
  - apply (ol_mul laws); [apply of_int_pos; lia | done].
  - assert (Esplit : stop = fadd (fmul (of_int (num - 1 - k)) s)
                              (fmul (of_int k) s)).
    { transitivity (fmul s d).
      - unfold s. rewrite (ol_div laws) by done. ring.
      - unfold d. replace (num - 1) with (k + (num - 1 - k)) at 1 by lia.
        rewrite (ol_of_int_add laws). ring. }
    assert (Hr : lt (of_int 0) (fmul (of_int (num - 1 - k)) s)).
    { apply (ol_mul laws); [apply of_int_pos; lia | done]. }
    pose proof (ol_add laws _ _ (fmul (of_int k) s) Hr) as E.
    replace (fadd (of_int 0) (fmul (of_int k) s)) with (fmul (of_int k) s)
      in E by ring.
    by rewrite <- Esplit in E.
Qed.

End Pistons.

Section PistonClaim.
Context {F : Type} `{Scalar F}.

(** C7.  In every state reached from a constructed object in which
    [force_vals] has one entry per piston, [impulse_term(x)] returns the sum
    of the terms [force_vals[j] * exp(-0.5*(x - force_locations[j])**2 /
    force_width)], one per piston; [force_width] is the configured width
    times [L]; the pistons are samples 1 to [num_force_points] of the
    [num_force_points + 2] samples of [linspace(0.0, L)], so that in an
    ordered field with [L > 0] piston [j] sits at [(j+1) * (L/(num_force_points
    + 1))], strictly between 0 and [L]; and the value depends on the object
    only through [force_vals], [force_locations] and [force_width]. *)
Theorem impulse_is_gaussian_sum (config : Config F) (w : Wave1D F) (x : F) :
  reachable config w ->
  length (force_vals w) = Z.to_nat (num_force_points w) ->
  impulse_term w x = Ok (np_sum (impulse_terms w x)) /\
  length (impulse_terms w x) = Z.to_nat (num_force_points_cfg config) /\
  (forall (j : nat) (v site : F),
      force_vals w !! j = Some v -> force_locations w !! j = Some site ->
      impulse_terms w x !! j =
        Some (fmul v (fexp (fdiv (fmul (fneg half) (pow2 (fsub x site)))
                                 (force_width w))))) /\
  force_width w = fmul (force_width_cfg config) (system_length config) /\
  length (force_locations w) = Z.to_nat (num_force_points_cfg config) /\
  (forall (j : nat) (site : F),
      force_locations w !! j = Some site ->
      linspace_val zero (system_length config)
                   (num_force_points_cfg config + 2) !! S j = Some site /\
      forall lt : F -> F -> Prop,
        ordered_laws lt -> lt zero (system_length config) ->
        site = fadd (fmul (of_int (Z.of_nat j + 1))
                          (fdiv (fsub (system_length config) zero)
                                (of_int (num_force_points_cfg config + 1))))
                    zero /\
        lt zero site /\ lt site (system_length config)) /\
  (forall w' : Wave1D F,
      force_vals w' = force_vals w ->
      force_locations w' = force_locations w ->
      force_width w' = force_width w ->
      impulse_term w' x = impulse_term w x).
Proof.
  intros Hr Hv.
  pose proof (reachable_shaped _ _ Hr) as Hw.
  pose proof (reachable_static _ _ Hr) as Hs. unfold static in Hs.
  injection Hs as _ _ _ _ Hn _ Hfw _ _ _ _. cbn in Hn, Hfw.
  pose proof (sh_locs _ Hw) as Hl. rewrite Hn in Hl, Hv.
  assert (Hm : length (force_vals w) = length (force_locations w))
    by congruence.
  split; [by apply impulse_term_matched |].
  split.
  { unfold impulse_terms.
    rewrite length_zip_with, gaussians_length. lia. }
  split; [intros j v site; apply impulse_terms_lookup |].
  split; [done |]. split; [done |]. split.
  - intros j site Hj.
    destruct (force_locations_lookup config w j site Hr Hj) as (Hlt & Hlin & Es).
    split; [done |].
    intros lt laws HL.
    destruct (sample_inside lt laws (system_length config)
                (num_force_points_cfg config + 2) (Z.of_nat j + 1) HL)
      as (E & H0 & H1); [lia |].
    rewrite <- Es in E, H0, H1.
    replace (num_force_points_cfg config + 2 - 1)
      with (num_force_points_cfg config + 1) in E by lia.
    done.
  - intros w' E1 E2 E3. by apply impulse_term_frame.
Qed.

End PistonClaim.

(** * Concrete runs on the rationals *)

Module Runs.
Import Rational.

Lemma qc_ring :
  ring_theory (of_int 0) (of_int 1) fadd fmul fsub fneg (@eq Qc).
Proof. exact Qcrt. Qed.

Lemma qc_of_int_add (a b : Z) :
  qc_of_int (a + b) = Qcplus (qc_of_int a) (qc_of_int b).
Proof.
  apply Qc_is_canon. unfold Qcplus, qc_of_int, Q2Qc. cbn [this].
  rewrite !Qred_correct, inject_Z_plus. reflexivity.
Qed.

Lemma qc_add_lt (a b c : Qc) : Qclt a b -> Qclt (Qcplus a c) (Qcplus b c).
Proof.
  unfold Qclt, Qcplus, Q2Qc. cbn [this]. rewrite !Qred_correct.
  intros Hab. by apply Qplus_lt_l.
Qed.

Lemma qc_ordered : ordered_laws Qclt.
Proof.
  split.
  - exact Qcrt.
  - intros a b Hb. cbn. rewrite Qcmult_comm. by apply Qcmult_div_r.
  - intros a. cbn. unfold qc_is_zero.
    destruct (Qc_eq_dec a (qc_of_int 0)); split; done.
  - exact qc_of_int_add.
  - intros a. apply Qlt_irrefl.
  - exact Qclt_trans.
  - intros a b. destruct (Qc_dec a b) as [[Hlt | Hgt] | Heq]; auto.
  - exact qc_add_lt.
  - intros a b Ha Hb. cbn.
    pose proof (Qcmult_lt_compat_r _ _ _ Hb Ha) as E.
    by rewrite Qcmult_0_l in E.
  - reflexivity.
Qed.

Lemma diffs_length (f x : list Qc) :
  length f = length x -> length (diffs f x) = pred (length f).
Proof.
  revert x. induction f as [| f0 f IH]; intros [| x0 x] Hl; try done.
  destruct f as [| f1 f], x as [| x1 x]; try done.
  change (diffs (f0 :: f1 :: f) (x0 :: x1 :: x))
    with (Qcdiv (Qcminus f1 f0) (Qcminus x1 x0) :: diffs (f1 :: f) (x1 :: x)).
  cbn [length]. rewrite IH by (cbn [length] in *; lia). done.
Qed.

Lemma qc_gradient_returns (f x : list Qc) :
  length f = length x -> (2 <= length x)%nat ->
  exists g, qc_gradient f x = Ok g /\ length g = length f.
Proof.
  intros Hl Hx. unfold qc_gradient.
  rewrite (proj2 (Nat.eqb_eq _ _) Hl), (proj2 (Nat.leb_le _ _) Hx).
  eexists. split; [done |].
  rewrite length_app, diffs_length by done. cbn. lia.
Qed.

Lemma qc_simps_returns (y x : list Qc) :
  length y = length x -> (2 <= length x)%nat ->
  exists s, qc_simps y x = Ok s.
Proof.
  intros Hl _. unfold qc_simps. rewrite (proj2 (Nat.eqb_eq _ _) Hl). eauto.
Qed.

(** The object [Wave1D(demo_config)], and the same after
    [take_in_action([1, 0, -1])]. *)
Definition demo_wave : Wave1D Qc := rested (allocated demo_config).

Definition demo_action : list Qc := [qc_of_int 1; qc_of_int 0; qc_of_int (-1)].

Definition demo_pushed : Wave1D Qc := set_force_vals demo_wave demo_action.

Lemma demo_wave_reachable : reachable demo_config demo_wave.
Proof. apply reach_init. apply init_passes_Ok. reflexivity. Qed.

Lemma demo_pushed_reachable : reachable demo_config demo_pushed.
Proof.
  apply (reach_action _ demo_wave demo_action);
    [apply demo_wave_reachable | reflexivity].
Qed.

(** C1 on [demo_pushed]: the step returns. *)
Lemma single_step_leapfrog_run :
  reachable demo_config demo_pushed /\
  length (force_vals demo_pushed) = Z.to_nat (num_force_points demo_pushed) /\
  is_ok (single_step demo_pushed) = true.
Proof.
  assert (Hr : reachable demo_config demo_pushed).
  { apply (reach_action _ demo_wave demo_action); [| reflexivity].
    apply reach_init, init_passes_Ok. reflexivity. }
  split; [exact Hr |]. split; [reflexivity |].
  apply (proj1 (single_step_leapfrog demo_config demo_pushed Hr)).
  reflexivity.
Defined.

(** C2 on [demo_pushed]. *)
Lemma boundaries_stay_zero_run :
  dirichlet (Nx demo_pushed) (height demo_pushed) /\
  dirichlet (Nx demo_pushed) (height_n demo_pushed) /\
  dirichlet (Nx demo_pushed) (height_nm1 demo_pushed).
Proof.
  apply (boundaries_stay_zero demo_config demo_pushed).
  apply (reach_action _ demo_wave demo_action); [| reflexivity].
  apply reach_init, init_passes_Ok. reflexivity.
Defined.

(** C4 on [demo_pushed]. *)
Lemma reset_is_rest_run :
  reachable demo_config demo_pushed /\
  reset demo_pushed = Ok (rest_of demo_config).
Proof.
  assert (Hr : reachable demo_config demo_pushed).
  { apply (reach_action _ demo_wave demo_action); [| reflexivity].
    apply reach_init, init_passes_Ok. reflexivity. }
  split; [exact Hr |].
  exact (proj1 (reset_is_rest qc_ring demo_config demo_pushed Hr)).
Defined.

(** C8 on [demo_action]. *)
Lemma negated_action_negates_run :
  exists w wp wm,
    reset demo_pushed = Ok w /\
    (take_in_action w demo_action ≫= single_step) = Ok wp /\
    (take_in_action w (fneg <$> demo_action) ≫= single_step) = Ok wm /\
    height wm = fneg <$> height wp.
Proof.
  apply (negated_action_negates qc_ring demo_config demo_pushed demo_action).
  - apply (reach_action _ demo_wave demo_action); [| reflexivity].
    apply reach_init, init_passes_Ok. reflexivity.
  - reflexivity.
Defined.

(** C3 on [demo_pushed], with the stand-ins for the two library routines. *)
Lemma energy_half_simpson_run :
  reachable demo_config demo_pushed /\
  exists s,
    energy qc_gradient qc_simps demo_pushed = Ok (fmul half s) /\
    exec qc_gradient qc_simps Energy demo_pushed
      = Ok (VFloat (fmul half s), demo_pushed).
Proof.
  assert (Hr : reachable demo_config demo_pushed).
  { apply (reach_action _ demo_wave demo_action); [| reflexivity].
    apply reach_init, init_passes_Ok. reflexivity. }
  split; [exact Hr |].
  destruct (energy_half_simpson qc_gradient qc_simps
              qc_gradient_returns qc_simps_returns
              demo_config demo_pushed Hr)
    as (dudx & density & s & _ & _ & _ & _ & Ee & Ex & _).
  exists s. split; assumption.
Defined.

(** C5: a vector of length 1 given to an object with three pistons.
    [take_in_action] returns, the vector is stored, and the next
    [single_step] returns too. *)
Lemma wrong_length_accepted :
  length [qc_of_int 1] <> Z.to_nat (num_force_points demo_wave) /\
  take_in_action demo_wave [qc_of_int 1]
    = Ok (set_force_vals demo_wave [qc_of_int 1]) /\
  force_vals (set_force_vals demo_wave [qc_of_int 1]) = [qc_of_int 1] /\
  is_ok (single_step (set_force_vals demo_wave [qc_of_int 1])) = true.
Proof.
  split; [cbn; lia |]. split; [reflexivity |]. split; reflexivity.
Qed.

(** C5 as amended, on a vector of length 2. *)
Lemma wrong_length_is_stored_run :
  length [qc_of_int 1; qc_of_int 1]
    <> Z.to_nat (num_force_points demo_wave) /\
  is_ok (take_in_action demo_wave [qc_of_int 1; qc_of_int 1]) = true /\
  single_step (set_force_vals demo_wave [qc_of_int 1; qc_of_int 1])
    = Raise ValueError.
Proof.
  assert (Hr : reachable demo_config demo_wave).
  { apply reach_init, init_passes_Ok. reflexivity. }
  assert (Hl : length [qc_of_int 1; qc_of_int 1]
               <> Z.to_nat (num_force_points demo_wave)).
  { cbn. lia. }
  split; [exact Hl |].
  destruct (wrong_length_is_stored demo_config demo_wave
              [qc_of_int 1; qc_of_int 1] Hr Hl)
    as (w' & Et & _ & Hbad & _).
  split; [by rewrite Et |].
  injection Et as <-.
  apply Hbad; [cbn; lia | cbn; lia | cbn; lia].
Defined.

(** A configuration in which every real parameter is negative and there is
    no piston. *)
Definition backwards_config : Config Qc :=
  {| time_interval := Q2Qc (-1 # 100);
     wave_speed := qc_of_int (-1);
     system_length := qc_of_int (-1);
     num_lattice_points := 4;
     num_force_points_cfg := 0;
     force_width_cfg := Q2Qc (-1 # 20) |}.

(** C6: [backwards_config] is accepted. *)
Lemma nonpositive_config_accepted :
  Qclt (time_interval backwards_config) (qc_of_int 0) /\
  Qclt (wave_speed backwards_config) (qc_of_int 0) /\
  Qclt (system_length backwards_config) (qc_of_int 0) /\
  Qclt (force_width_cfg backwards_config) (qc_of_int 0) /\
  num_force_points_cfg backwards_config <= 0 /\
  is_ok (init backwards_config) = true.
Proof. repeat split; first [reflexivity | cbn; lia]. Qed.

(** [demo_config] with no lattice interval. *)
Definition no_cell_config : Config Qc :=
  {| time_interval := Q2Qc (1 # 100);
     wave_speed := qc_of_int 1;
     system_length := qc_of_int 1;
     num_lattice_points := 0;
     num_force_points_cfg := 3;
     force_width_cfg := Q2Qc (1 # 20) |}.

(** C6 as amended, on [no_cell_config]. *)
Lemma init_raises_on_bad_sizes_run :
  num_lattice_points no_cell_config <= 0 /\
  exists e, init no_cell_config = Raise e.
Proof.
  assert (H0 : num_lattice_points no_cell_config <= 0) by (cbn; lia).
  split; [exact H0 |].
  apply (init_raises_on_bad_sizes no_cell_config).
  left. exact H0.
Defined.

(** C7 on [demo_pushed]: the first piston sits at 1/4. *)
Lemma impulse_is_gaussian_sum_run :
  reachable demo_config demo_pushed /\
  impulse_term demo_pushed (Q2Qc (1 # 2))
    = Ok (np_sum (impulse_terms demo_pushed (Q2Qc (1 # 2)))) /\
  force_locations demo_pushed !! 0%nat = Some (Q2Qc (1 # 4)) /\
  Qclt (qc_of_int 0) (Q2Qc (1 # 4)) /\
  Qclt (Q2Qc (1 # 4)) (system_length demo_config).
Proof.
  assert (Hr : reachable demo_config demo_pushed).
  { apply (reach_action _ demo_wave demo_action); [| reflexivity].
    apply reach_init, init_passes_Ok. reflexivity. }
  assert (Hs : force_locations demo_pushed !! 0%nat = Some (Q2Qc (1 # 4))).
  { reflexivity. }
  split; [exact Hr |].
  destruct (impulse_is_gaussian_sum demo_config demo_pushed (Q2Qc (1 # 2))
              Hr eq_refl)
    as (Ei & _ & _ & _ & _ & Hsite & _).
  split; [exact Ei |]. split; [exact Hs |].
  destruct (Hsite 0%nat (Q2Qc (1 # 4)) Hs) as [_ Hin].
  destruct (Hin Qclt qc_ordered) as (_ & H0 & H1); [reflexivity |].
  split; assumption.
Defined.

End Runs.

(** * Further properties of the class *)

(** ** The impulse profile, and where a mis-shaped action is noticed *)

Section Profile.
Context {F : Type} `{Scalar F}.

Lemma profile_loop_agree (w : Wave1D F) (idxs : list Z) (acc : list F) :
  length (x_mesh w) = Z.to_nat (Nx w + 1) ->
  (forall i, In i idxs -> 0 <= i < Nx w + 1) ->
  shapes_agree (force_vals w) (force_locations w) = true ->
  profile_loop w idxs acc
    = Ok (acc ++ map (fun i => impulse_val w (item (x_mesh w) i)) idxs).
Proof.
  intros Hx Hin Hag. revert acc.
  induction idxs as [| i idxs IH]; intros acc; cbn [profile_loop map].
  - by rewrite app_nil_r.
  - rewrite getitem_item by (specialize (Hin i (or_introl eq_refl)); lia).
    red_obj. rewrite impulse_term_cases, Hag. red_obj.
    rewrite IH by (intros i' Hi'; apply Hin; by right).
    by rewrite <- app_assoc.
Qed.

Lemma profile_loop_disagree (w : Wave1D F) (i : Z) (idxs : list Z)
    (acc : list F) :
  length (x_mesh w) = Z.to_nat (Nx w + 1) ->
  0 <= i < Nx w + 1 ->
  shapes_agree (force_vals w) (force_locations w) = false ->
  profile_loop w (i :: idxs) acc = Raise ValueError.
Proof.
  intros Hx Hi Hag. cbn [profile_loop].
  rewrite getitem_item by lia. red_obj.
  by rewrite impulse_term_cases, Hag.
Qed.

(** X1.  In every state reached from a constructed object in which
    [force_vals] has one entry per piston, [get_impulse_profile()] returns an
    array with one entry per mesh point, entry [k] being
    [impulse_term(x_mesh[k])]; the object is left as it was. *)
Theorem impulse_profile_entries
    (np_gradient : list F -> list F -> result (list F))
    (simps : list F -> list F -> result F)
    (config : Config F) (w : Wave1D F) :
  reachable config w ->
  length (force_vals w) = Z.to_nat (num_force_points w) ->
  exists p,
    get_impulse_profile w = Ok p /\
    length p = Z.to_nat (Nx w + 1) /\
    (forall (k : nat) (xk : F),
        x_mesh w !! k = Some xk ->
        exists v, impulse_term w xk = Ok v /\ p !! k = Some v) /\
    exec np_gradient simps GetImpulseProfile w = Ok (VArray p, w).
Proof.
  intros Hr Hv. pose proof (reachable_shaped _ _ Hr) as Hw.
  pose proof Hw as [HN _ _ _ Hx Hp Hl].
  assert (Hag : shapes_agree (force_vals w) (force_locations w) = true).
  { unfold shapes_agree. by rewrite Hv, Hl, Nat.eqb_refl. }
  assert (E : get_impulse_profile w
              = Ok (map (fun i => impulse_val w (item (x_mesh w) i))
                        (py_range 0 (Nx w + 1)))).
  { unfold get_impulse_profile. rewrite profile_loop_agree; try done.
    intros i Hi. by apply py_range_bounds in Hi. }
  eexists. split; [exact E |]. split; [| split].
  - rewrite length_map, py_range_length. f_equal. lia.
  - intros k xk Hk. exists (impulse_val w xk).
    rewrite impulse_term_cases, Hag. split; [done |].
    assert (Hlt : (k < Z.to_nat (Nx w + 1))%nat).
    { apply lookup_lt_Some in Hk. lia. }
    rewrite lookup_map, py_range_lookup by lia. cbn.
    unfold item. rewrite Z.add_0_l, Nat2Z.id, Hk. done.
  - cbn [exec]. by rewrite E.
Qed.

(** X2.  In every state reached from a constructed object,
    [get_impulse_profile()] returns exactly when the shapes of [force_vals]
    and [force_locations] broadcast together (equal lengths, or one of them of
    length 1), and raises otherwise: the mesh always has a point to evaluate
    the impulse at. *)
Theorem impulse_profile_returns_iff (config : Config F) (w : Wave1D F) :
  reachable config w ->
  is_ok (get_impulse_profile w)
    = shapes_agree (force_vals w) (force_locations w).
Proof.
  intros Hr. pose proof (reachable_shaped _ _ Hr) as [HN _ _ _ Hx _ _].
  unfold get_impulse_profile.
  destruct (shapes_agree (force_vals w) (force_locations w)) eqn:Hag.
  - rewrite profile_loop_agree; try done.
    intros i Hi. by apply py_range_bounds in Hi.
  - rewrite py_range_cons by lia.
    rewrite profile_loop_disagree; try done. lia.
Qed.

(** X3.  In every state reached from a constructed object, [single_step()]
    returns exactly when the mesh has no interior point ([Nx < 2]) or the
    shapes of [force_vals] and [force_locations] broadcast together; with
    [Nx = 1] a mis-shaped action is never noticed by [single_step]. *)
Theorem single_step_returns_iff (config : Config F) (w : Wave1D F) :
  reachable config w ->
  is_ok (single_step w)
    = (Nx w <? 2) || shapes_agree (force_vals w) (force_locations w).
Proof.
  intros Hr. rewrite single_step_cases by (by eapply reachable_shaped).
  by destruct (_ || _).
Qed.

(** X10.  From every state reached from a constructed object, whatever
    vector was last given to [take_in_action], [reset()] returns, and in the
    state it leaves both [single_step()] and [get_impulse_profile()]
    return. *)
Theorem reset_recovers (config : Config F) (w : Wave1D F) :
  reachable config w ->
  exists w',
    reset w = Ok w' /\
    length (force_vals w') = Z.to_nat (num_force_points w) /\
    is_ok (single_step w') = true /\
    is_ok (get_impulse_profile w') = true.
Proof.
  intros Hr. pose proof (reachable_shaped _ _ Hr) as Hw.
  assert (Hr' : reachable config (rested w)).
  { eapply reach_reset; [exact Hr | by apply reset_eq]. }
  pose proof (rested_shaped _ Hw) as Hw'.
  assert (Hag : shapes_agree (force_vals (rested w))
                  (force_locations (rested w)) = true).
  { unfold shapes_agree. cbn [force_vals force_locations rested cleared
      set_height set_height_n set_height_nm1 set_force_vals set_n set_t].
    cbv zeta. cbn [force_vals force_locations set_height set_height_n
                   set_height_nm1 set_force_vals set_n set_t].
    by rewrite length_replicate, (sh_locs _ Hw), Nat.eqb_refl. }
  exists (rested w). split; [by apply reset_eq |]. split; [| split].
  - cbn. by rewrite length_replicate.
  - rewrite single_step_cases, Hag by done. by rewrite orb_true_r.
  - unfold get_impulse_profile.
    rewrite profile_loop_agree; try done.
    + by destruct Hw'.
    + intros i Hi. by apply py_range_bounds in Hi.
Qed.

End Profile.

(** ** Several steps in a row *)

Section Steps.
Context {F : Type} `{Scalar F}.

(** [k] calls of [single_step()], one after the other. *)
Fixpoint steps (k : nat) (w : Wave1D F) : result (Wave1D F) :=
  match k with
  | O => Ok w
  | S k' => w' ← single_step w; steps k' w'
  end.

Lemma steps_stepped (k : nat) (w w' : Wave1D F) :
  shaped w -> steps k w = Ok w' ->
  shaped w' /\
  n w' = n w + Z.of_nat k /\
  t w' = Nat.iter k (fun x => fadd x (dt w)) (t w) /\
  force_vals w' = force_vals w /\
  static w' = static w.
Proof.
  revert w. induction k as [| k IH]; intros w Hw E.
  - injection E as <-. split; [done |]. split; [cbn; lia |]. by repeat split.
  - cbn [steps] in E. rewrite single_step_cases in E by done.
    destruct (_ || _); [| discriminate]. red_obj.
    cbn [mbind result_bind] in E.
    destruct (IH _ (stepped_shaped _ Hw) E) as (Hw' & Hn & Ht & Hf & Hs).
    split; [done |]. split; [| split; [| split]].
    + rewrite Hn. cbn. lia.
    + rewrite Ht, Nat.iter_succ_r. reflexivity.
    + by rewrite Hf.
    + by rewrite Hs.
Qed.

Lemma steps_return (k : nat) (w : Wave1D F) :
  shaped w -> length (force_vals w) = Z.to_nat (num_force_points w) ->
  is_ok (steps k w) = true.
Proof.
  revert w. induction k as [| k IH]; intros w Hw Hv; [done |].
  cbn [steps]. rewrite single_step_cases by done.
  assert (Hag : shapes_agree (force_vals w) (force_locations w) = true).
  { unfold shapes_agree. by rewrite Hv, (sh_locs _ Hw), Nat.eqb_refl. }
  rewrite Hag, orb_true_r. cbn [mbind result_bind].
  apply IH; [by apply stepped_shaped | done].
Qed.

Lemma steps_reachable (config : Config F) (k : nat) (w w' : Wave1D F) :
  reachable config w -> steps k w = Ok w' -> reachable config w'.
Proof.
  revert w. induction k as [| k IH]; intros w Hr E.
  - by injection E as <-.
  - cbn [steps] in E. destruct (single_step w) as [w1 |] eqn:E1;
      [| discriminate].
    cbn [mbind result_bind] in E. apply (IH w1); [| done].
    by eapply reach_step.
Qed.

(** X4.  From a state reached from a constructed object, [k] calls of
    [single_step()] in a row all return when [force_vals] has one entry per
    piston; whenever they return, [n] has grown by exactly [k], [t] is the old
    [t] with [dt] added [k] times, [force_vals] is still the vector last
    applied, and the attributes set by [__init__] are untouched. *)
Theorem steps_count_and_keep_force (config : Config F) (k : nat)
    (w : Wave1D F) :
  reachable config w ->
  (length (force_vals w) = Z.to_nat (num_force_points w) ->
   is_ok (steps k w) = true) /\
  forall w', steps k w = Ok w' ->
    n w' = n w + Z.of_nat k /\
    t w' = Nat.iter k (fun x => fadd x (dt w)) (t w) /\
    force_vals w' = force_vals w /\
    static w' = static w /\
    reachable config w'.
Proof.
  intros Hr. pose proof (reachable_shaped _ _ Hr) as Hw. split.
  - by apply steps_return.
  - intros w' E.
    destruct (steps_stepped k w w' Hw E) as (_ & Hn & Ht & Hf & Hs).
    repeat split; try done. by eapply steps_reachable.
Qed.

End Steps.

(** ** Linearity *)

Section Linear.
Context {F : Type} `{Scalar F}.
Hypothesis Fring :
  ring_theory (of_int 0) (of_int 1) fadd fmul fsub fneg (@eq F).

Add Ring F_linear_ring : Fring.

(** Flat, and no force applied. *)
Definition quiet (w : Wave1D F) : Prop :=
  height w = flat w /\ height_n w = flat w /\ height_nm1 w = flat w /\
  force_vals w = replicate (Z.to_nat (num_force_points w)) zero.

Lemma impulse_val_no_force (w : Wave1D F) (x : F) :
  shaped w ->
  force_vals w = replicate (Z.to_nat (num_force_points w)) zero ->
  impulse_val w x = zero.
Proof using Fring.
  intros Hw Hf. unfold impulse_val.
  rewrite impulse_term_matched.
  - rewrite Hf. by apply np_sum_zeros, zeros_times.
  - by rewrite Hf, length_replicate, (sh_locs _ Hw).
Qed.

Lemma leapfrog_quiet (w : Wave1D F) (i : Z) :
  height_n w = flat w -> height_nm1 w = flat w ->
  leapfrog w i zero = zero.
Proof using Fring.
  intros Hn Hm. unfold leapfrog. rewrite Hn, Hm. unfold flat.
  rewrite !item_zeros. unfold zero. ring.
Qed.

Lemma stepped_quiet (w : Wave1D F) :
  shaped w -> quiet w ->
  single_step w = Ok (stepped w) /\ quiet (stepped w).
Proof using Fring.
  intros Hw (Hh & Hn & Hm & Hf). split.
  - rewrite single_step_cases by done.
    unfold shapes_agree.
    by rewrite Hf, length_replicate, (sh_locs _ Hw), Nat.eqb_refl, orb_true_r.
  - assert (E : height (stepped w) = flat w).
    { rewrite stepped_height. unfold leapfrog_heights.
      rewrite (fill_ext _ (fun _ => zero)).
      - rewrite Hh. unfold flat.
        apply boundary_fill_zeros; [by destruct Hw |].
        by rewrite length_replicate.
      - intros i _. rewrite impulse_val_no_force by done.
        by apply leapfrog_quiet. }
    unfold quiet. change (flat (stepped w)) with (flat w).
    change (height_n (stepped w)) with (height (stepped w)).
    change (height_nm1 (stepped w)) with (height_n w).
    change (force_vals (stepped w)) with (force_vals w).
    change (num_force_points (stepped w)) with (num_force_points w).
    by rewrite E.
Qed.

Lemma steps_quiet (k : nat) (w : Wave1D F) :
  shaped w -> quiet w ->
  exists w', steps k w = Ok w' /\ quiet w' /\ Nx w' = Nx w.
Proof using Fring.
  revert w. induction k as [| k IH]; intros w Hw Hq.
  - by exists w.
  - destruct (stepped_quiet w Hw Hq) as [E Hq'].
    destruct (IH (stepped w) (stepped_shaped _ Hw) Hq') as (w' & E' & Hq'' & HN).
    exists w'. cbn [steps]. rewrite E. cbn [mbind result_bind].
    split; [exact E' |]. split; [exact Hq'' | exact HN].
Qed.

Lemma at_rest_shaped (w : Wave1D F) : shaped w -> shaped (at_rest w).
Proof.
  intros []. split; cbn; unfold flat; rewrite ?length_replicate; done.
Qed.

Lemma allocated_shaped_of_reachable (config : Config F) (w : Wave1D F) :
  reachable config w -> shaped (allocated config).
Proof.
  induction 1 as [w E | | |]; try done.
  apply allocated_shaped;
    by apply (init_passes_bounds config), (init_Ok_passes _ _ E).
Qed.

(** In a ring the rest state is kept by any number of steps. *)
Lemma flat_in_ring (config : Config F) (w0 : Wave1D F) (k : nat) :
  reachable config w0 ->
  exists w w',
    reset w0 = Ok w /\
    steps k w = Ok w' /\
    height w' = replicate (Z.to_nat (num_lattice_points config + 1)) zero /\
    height_n w' = replicate (Z.to_nat (num_lattice_points config + 1)) zero /\
    height_nm1 w' = replicate (Z.to_nat (num_lattice_points config + 1)) zero /\
    n w' = Z.of_nat k /\
    get_observation w' =
      Ok {| chan0 := replicate (Z.to_nat (num_lattice_points config + 1)) zero;
            chan1 := replicate (Z.to_nat (num_lattice_points config + 1)) zero;
            chan2 := replicate (Z.to_nat (num_lattice_points config + 1)) zero
         |}.
Proof using Fring.
  intros Hr.
  pose proof (allocated_shaped_of_reachable _ _ Hr) as Ha.
  pose proof (at_rest_shaped _ Ha) as Hs.
  assert (Hq : quiet (rest_of config)) by (by repeat split).
  destruct (steps_quiet k (rest_of config) Hs Hq)
    as (w' & E & (Hh & Hn & Hm & Hf) & HN).
  destruct (steps_stepped k _ _ Hs E) as (Hw' & Hk & _).
  exists (rest_of config), w'.
  split; [by apply reset_reachable |]. split; [done |].
  unfold flat in Hh, Hn, Hm. rewrite HN in Hh, Hn, Hm.
  change (Nx (rest_of config)) with (num_lattice_points config) in Hh, Hn, Hm.
  split; [done |]. split; [done |]. split; [done |]. split.
  - rewrite Hk. cbn. lia.
  - rewrite get_observation_eq by done. by rewrite Hh, Hn, Hm.
Qed.

(** In a ring the first step from rest stores the scaled impulse. *)
Lemma first_step_in_ring (config : Config F) (w0 : Wave1D F)
    (a : list F) :
  reachable config w0 ->
  length a = Z.to_nat (num_force_points_cfg config) ->
  exists w w',
    reset w0 = Ok w /\
    (take_in_action w a ≫= single_step) = Ok w' /\
    (forall i, 1 <= i <= num_lattice_points config - 1 ->
       exists xi imp,
         x_mesh w !! Z.to_nat i = Some xi /\
         impulse_term (set_force_vals w a) xi = Ok imp /\
         height w' !! Z.to_nat i
           = Some (fmul (pow2 (time_interval config)) imp)) /\
    height w' !! 0%nat = Some zero /\
    height w' !! Z.to_nat (num_lattice_points config) = Some zero /\
    height_nm1 w'
      = replicate (Z.to_nat (num_lattice_points config + 1)) zero /\
    n w' = 1.
Proof using Fring.
  intros Hr Ha.
  pose proof (allocated_shaped_of_reachable _ _ Hr) as Hsh.
  assert (Hl : length a = length (force_locations (allocated config))).
  { by rewrite (sh_locs _ Hsh). }
  destruct (step_from_rest Fring (allocated config) a Hsh Hl) as [Es Hh].
  pose proof (at_rest_shaped _ Hsh) as Hrs.
  assert (Hps : shaped (set_force_vals (at_rest (allocated config)) a)).
  { eapply take_in_action_shaped; [exact Hrs | reflexivity]. }
  exists (rest_of config),
    (stepped (set_force_vals (at_rest (allocated config)) a)).
  split; [by apply reset_reachable |]. split; [exact Es |].
  destruct (stepped_boundary _ Hps) as [H0 HN].
  split; [| split; [exact H0 | split; [exact HN | split; reflexivity]]].
  intros i Hi.
  pose proof Hsh as [HNx _ _ _ Hx _ _].
  change (Nx (allocated config)) with (num_lattice_points config) in HNx, Hx.
  exists (item (x_mesh (allocated config)) i),
    (impulse_val (set_force_vals (allocated config) a)
       (item (x_mesh (allocated config)) i)).
  split; [apply (item_lookup (x_mesh (allocated config))); lia |]. split.
  - rewrite impulse_term_cases. unfold shapes_agree.
    cbn [force_vals force_locations set_force_vals].
    change (force_locations (rest_of config))
      with (force_locations (allocated config)).
    rewrite Hl, Nat.eqb_refl. cbn [orb].
    f_equal; by apply impulse_val_frame.
  - rewrite Hh.
    change (Nx (allocated config)) with (num_lattice_points config).
    rewrite boundary_interior by lia.
    apply (fill_lookup_in
             (fun i => fmul (pow2 (dt (allocated config)))
                         (impulse_val (set_force_vals (allocated config) a)
                            (item (x_mesh (allocated config)) i)))).
    + intros i' Hi'. apply py_range_bounds in Hi'. lia.
    + apply py_range_bounds. lia.
    + unfold flat. rewrite length_replicate.
      change (Nx (allocated config)) with (num_lattice_points config). lia.
Qed.

End Linear.

(** ** A caller's loop *)

Section Drive.
Context {F : Type} `{Scalar F}.

(** A control loop: for each vector in turn, [take_in_action] then
    [single_step]. *)
Fixpoint drive (acts : list (list F)) (w : Wave1D F) : result (Wave1D F) :=
  match acts with
  | [] => Ok w
  | a :: rest =>
      w1 ← take_in_action w a;
      w2 ← single_step w1;
      drive rest w2
  end.

Lemma stepped_static (w : Wave1D F) : static (stepped w) = static w.
Proof. reflexivity. Qed.

Lemma stepped_height_n (w : Wave1D F) : height_n (stepped w) = height (stepped w).
Proof. reflexivity. Qed.

Lemma stepped_height_nm1 (w : Wave1D F) : height_nm1 (stepped w) = height_n w.
Proof. reflexivity. Qed.

End Drive.

(** ** The mesh *)

Section Mesh.
Context {F : Type} `{Scalar F}.
Variable lt : F -> F -> Prop.
Hypothesis laws : ordered_laws lt.

Add Ring F_mesh_ring : (ol_ring lt laws).

Lemma sample_from_zero (stop : F) (num k : Z) :
  lt (of_int 0) stop -> 1 < num ->
  sample zero stop num k = fmul (of_int k) (fdiv stop (of_int (num - 1))).
Proof using laws.
  intros HL Hnum. unfold sample, zero. cbv zeta.
  replace (fsub stop (of_int 0)) with stop by ring.
  assert (Hs : lt (of_int 0) (fdiv stop (of_int (num - 1)))).
  { apply (quotient_pos lt laws); [done |]. apply (of_int_pos lt laws). lia. }
  destruct (fis_zero (fdiv stop (of_int (num - 1)))) eqn:E.
  - apply (ol_is_zero lt laws) in E. rewrite E in Hs.
    by destruct (ol_irrefl lt laws (of_int 0)).
  - ring.
Qed.

Lemma div_by_one (a : F) : fdiv a (of_int 1) = a.
Proof using laws.
  assert (H1 : of_int 1 <> of_int 0).
  { intros E. pose proof (ol_one lt laws) as Ho. rewrite E in Ho.
    by apply (ol_irrefl lt laws (of_int 0)). }
  pose proof (ol_div lt laws a (of_int 1) H1) as E.
  rewrite <- E at 2. ring.
Qed.

(** X8.  In an ordered field, for a constructed object with [L > 0]: the
    mesh has [Nx + 1] points, point [k] is [k * (L/Nx)] for [k < Nx], the
    first is 0 and the last is [L] itself; the spacing [dx] recomputed from
    the mesh is [L/Nx] and is positive, so the Courant number stored in [C]
    is [wave_speed * time_interval / dx], and [C2] is its square. *)
Theorem mesh_layout (config : Config F) (w : Wave1D F) :
  lt zero (system_length config) ->
  reachable config w ->
  length (x_mesh w) = Z.to_nat (Nx w + 1) /\
  (forall k, 0 <= k < Nx w ->
     x_mesh w !! Z.to_nat k
       = Some (fmul (of_int k) (fdiv (system_length config) (of_int (Nx w))))) /\
  x_mesh w !! 0%nat = Some zero /\
  x_mesh w !! Z.to_nat (Nx w) = Some (system_length config) /\
  dx w = fdiv (system_length config) (of_int (Nx w)) /\
  lt zero (dx w) /\
  C w = fdiv (fmul (wave_speed config) (time_interval config)) (dx w) /\
  C2 w = fmul (C w) (C w).
Proof using laws.
  intros HL Hr.
  pose proof (reachable_shaped _ _ Hr) as [HN _ _ _ Hx _ _].
  pose proof (reachable_static _ _ Hr) as Hs. unfold static in Hs.
  injection Hs as _ _ _ ENx _ _ _ Edx Exm EC EC2.
  cbn in ENx, Edx, EC, EC2. cbn [x_mesh allocated] in Exm.
  rewrite <- ENx in *.
  assert (Hk : forall k, 0 <= k < Nx w ->
             x_mesh w !! Z.to_nat k
             = Some (fmul (of_int k)
                       (fdiv (system_length config) (of_int (Nx w))))).
  { intros k Hk. rewrite Exm.
    rewrite linspace_val_lookup by (clear - Hk; lia).
    rewrite sample_from_zero by (done || (clear - HN; lia)).
    rewrite Z2Nat.id by (clear - Hk; lia).
    replace (Nx w + 1 - 1) with (Nx w) by (clear; lia). done. }
  assert (Hlast : x_mesh w !! Z.to_nat (Nx w) = Some (system_length config)).
  { rewrite Exm.
    pose proof (linspace_val_last zero (system_length config) (Nx w + 1)) as E.
    replace (Nx w + 1 - 1) with (Nx w) in E by (clear; lia).
    apply E. clear - HN. lia. }
  assert (H0 : x_mesh w !! 0%nat = Some zero).
  { change 0%nat with (Z.to_nat 0).
    rewrite (Hk 0) by (clear - HN; lia). f_equal. unfold zero. ring. }
  assert (Hdx : dx w = fdiv (system_length config) (of_int (Nx w))).
  { rewrite Edx. unfold item. rewrite <- Exm. change (Z.to_nat 0) with 0%nat.
    rewrite H0. cbn [default from_option id].
    destruct (decide (Nx w = 1)) as [E1 | E1].
    - rewrite E1 in Hlast |- *. rewrite Hlast. cbn [default from_option id].
      rewrite div_by_one. unfold zero. ring.
    - rewrite (Hk 1) by (clear - HN E1; lia). cbn [default from_option id].
      unfold zero. ring. }
  split; [done |]. split; [done |]. split; [done |]. split; [done |].
  split; [done |]. split; [| split].
  - rewrite Hdx. apply (quotient_pos lt laws); [done |].
    apply (of_int_pos lt laws). clear - HN. lia.
  - by rewrite EC, Hdx.
  - rewrite EC2, EC. reflexivity.
Qed.

End Mesh.

(** ** A call that raises *)

Section Statements.
Context {F : Type} `{Scalar F}.

(** One statement of a method body: it completes and gives the object after
    it, or it raises before it has stored anything. *)
Definition stmt : Type := Wave1D F -> result (Wave1D F).

(** Run the statements in order; at the first exception stop and keep the
    object as the statements before it left it. *)
Fixpoint run_block (stmts : list stmt) (w : Wave1D F)
  : Wave1D F * option exn :=
  match stmts with
  | [] => (w, None)
  | s :: rest =>
      match s w with
      | Ok w' => run_block rest w'
      | Raise e => (w, Some e)
      end
  end.

(** The three statements of the loop body of [single_step], in order. *)
Definition step_stmt_1 (i : Z) : stmt := fun w =>
  hm ← getitem (height_nm1 w) i;
  hn ← getitem (height_n w) i;
  a ← setitem (height w) i (fadd (fneg hm) (fmul two hn));
  Ok (set_height w a).

Definition step_stmt_2 (i : Z) : stmt := fun w =>
  cur ← getitem (height w) i;
  hl ← getitem (height_n w) (i - 1);
  hc ← getitem (height_n w) i;
  hr ← getitem (height_n w) (i + 1);
  a ← setitem (height w) i
        (fadd cur (fmul (C2 w) (fadd (fsub hl (fmul two hc)) hr)));
  Ok (set_height w a).

Definition step_stmt_3 (i : Z) : stmt := fun w =>
  cur ← getitem (height w) i;
  xi ← getitem (x_mesh w) i;
  imp ← impulse_term w xi;
  a ← setitem (height w) i (fadd cur (fmul (pow2 (dt w)) imp));
  Ok (set_height w a).

(** The statements [single_step] executes on [w], the loop unrolled. *)
Definition single_step_stmts (w : Wave1D F) : list stmt :=
  [ (fun w => Ok (set_t w (fadd (t w) (dt w))));
    (fun w => Ok (set_n w (n w + 1))) ]
  ++ flat_map (fun i => [step_stmt_1 i; step_stmt_2 i; step_stmt_3 i])
              (py_range 1 (Nx w))
  ++ [ (fun w => a ← setitem (height w) 0 zero; Ok (set_height w a));
       (fun w => a ← setitem (height w) (Nx w) zero; Ok (set_height w a));
       (fun w => a ← assign_all (height_nm1 w) (height_n w);
                 Ok (set_height_nm1 w a));
       (fun w => a ← assign_all (height_n w) (height w);
                 Ok (set_height_n w a)) ].

(** [single_step()] with the object it leaves behind, also when it raises. *)
Definition single_step_traced (w : Wave1D F) : Wave1D F * option exn :=
  run_block (single_step_stmts w) w.

Definition outcome (r : Wave1D F * option exn) : result (Wave1D F) :=
  match r with
  | (w, None) => Ok w
  | (_, Some e) => Raise e
  end.

Lemma outcome_app (l1 l2 : list stmt) (w : Wave1D F) :
  outcome (run_block (l1 ++ l2) w)
    = outcome (run_block l1 w) ≫= (fun w' => outcome (run_block l2 w')).
Proof.
  revert w. induction l1 as [| s l1 IH]; intros w; cbn [app run_block].
  - done.
  - destruct (s w) as [w' | e]; [apply IH | done].
Qed.

Ltac split_binds :=
  unfold mbind, result_bind;
  repeat match goal with
    | |- context [match ?m with Ok _ => _ | Raise _ => _ end] =>
        lazymatch m with
        | context [match _ with Ok _ => _ | Raise _ => _ end] => fail
        | _ => destruct m; cbn beta iota
        end
    end;
  try reflexivity.

Lemma step_body_stmts (i : Z) (w : Wave1D F) :
  step_body i w = (step_stmt_1 i w ≫= step_stmt_2 i) ≫= step_stmt_3 i.
Proof. unfold step_body, step_stmt_1, step_stmt_2, step_stmt_3. split_binds. Qed.

Lemma outcome_loop (idxs : list Z) (w : Wave1D F) :
  outcome (run_block
             (flat_map (fun i => [step_stmt_1 i; step_stmt_2 i; step_stmt_3 i])
                       idxs) w)
    = foldM step_body idxs w.
Proof.
  revert w. induction idxs as [| i idxs IH]; intros w; [done |].
  cbn [flat_map foldM app run_block]. rewrite step_body_stmts.
  destruct (step_stmt_1 i w) as [w1 | e]; [| done]. cbn [mbind result_bind].
  destruct (step_stmt_2 i w1) as [w2 | e]; [| done]. cbn [mbind result_bind].
  destruct (step_stmt_3 i w2) as [w3 | e]; [| done]. cbn [mbind result_bind].
  apply IH.
Qed.

Lemma single_step_traced_outcome (w : Wave1D F) :
  outcome (single_step_traced w) = single_step w.
Proof.
  unfold single_step_traced, single_step_stmts, single_step.
  cbn [app run_block]. rewrite outcome_app, outcome_loop.
  unfold for_range. cbn [Nx set_n set_t].
  destruct (foldM step_body (py_range 1 (Nx w)) _) as [w1 | e]; [| done].
  cbn [mbind result_bind]. unfold force_boundary_and_switch.
  cbn [run_block]. split_binds.
Qed.

(** X9.  A [single_step()] that raises does not undo what it has done.  In
    a state reached from a constructed object whose mesh has an interior
    point and whose [force_vals] does not broadcast against the pistons, the
    call raises [ValueError] and leaves the object with [t] advanced by [dt],
    [n] advanced by 1 and [height[1]] overwritten by the leapfrog value
    without its impulse term; [height_n], [height_nm1] and [force_vals] are as
    before.  The statement-by-statement run agrees with [single_step] on
    every object. *)
Theorem failed_step_is_not_undone (config : Config F) (w : Wave1D F) :
  reachable config w ->
  2 <= Nx w ->
  shapes_agree (force_vals w) (force_locations w) = false ->
  single_step w = Raise ValueError /\
  (forall w0 : Wave1D F, outcome (single_step_traced w0) = single_step w0) /\
  exists w' hm hl hc hr,
    single_step_traced w = (w', Some ValueError) /\
    height_nm1 w !! 1%nat = Some hm /\
    height_n w !! 0%nat = Some hl /\
    height_n w !! 1%nat = Some hc /\
    height_n w !! 2%nat = Some hr /\
    t w' = fadd (t w) (dt w) /\
    n w' = n w + 1 /\
    height w' =
      <[1%nat := fadd (fadd (fneg hm) (fmul two hc))
                      (fmul (C2 w) (fadd (fsub hl (fmul two hc)) hr))]>
        (height w) /\
    height_n w' = height_n w /\
    height_nm1 w' = height_nm1 w /\
    force_vals w' = force_vals w.
Proof.
  intros Hr HN Hag. pose proof (reachable_shaped _ _ Hr) as Hw.
  split.
  { rewrite single_step_cases, Hag by done.
    destruct (Z.ltb_spec (Nx w) 2); [lia | done]. }
  split; [exact single_step_traced_outcome |].
  destruct Hw as [_ Hh Hn Hm Hx _ _].
  exists (set_height (set_n (set_t w (fadd (t w) (dt w))) (n w + 1))
            (<[1%nat := fadd (fadd (fneg (item (height_nm1 w) 1))
                                   (fmul two (item (height_n w) 1)))
                             (fmul (C2 w)
                                (fadd (fsub (item (height_n w) 0)
                                            (fmul two (item (height_n w) 1)))
                                      (item (height_n w) 2)))]>
               (height w))),
    (item (height_nm1 w) 1), (item (height_n w) 0), (item (height_n w) 1),
    (item (height_n w) 2).
  split.
  - unfold single_step_traced, single_step_stmts.
    rewrite py_range_cons by lia.
    cbn [app flat_map run_block].
    unfold step_stmt_1 at 1. red_obj.
    rewrite !getitem_item by lia. red_obj.
    destruct (setitem_twice (height w) 1
                (fadd (fneg (item (height_nm1 w) 1))
                      (fmul two (item (height_n w) 1))))
      as (E1 & Eg & Es); [lia |].
    change (Z.to_nat 1) with 1%nat in E1, Eg, Es.
    rewrite E1. red_obj.
    unfold step_stmt_2 at 1. red_obj.
    rewrite Eg. red_obj.
    change (1 - 1) with 0. change (1 + 1) with 2.
    rewrite !getitem_item by lia. red_obj.
    rewrite Es. red_obj.
    unfold step_stmt_3 at 1. red_obj.
    destruct (setitem_twice (height w) 1
                (fadd (fadd (fneg (item (height_nm1 w) 1))
                            (fmul two (item (height_n w) 1)))
                      (fmul (C2 w)
                         (fadd (fsub (item (height_n w) 0)
                                     (fmul two (item (height_n w) 1)))
                               (item (height_n w) 2)))))
      as (_ & Eg2 & _); [lia |].
    change (Z.to_nat 1) with 1%nat in Eg2. rewrite Eg2.
    red_obj. rewrite getitem_item by lia. red_obj.
    rewrite impulse_term_cases. red_obj. rewrite Hag. red_obj.
    reflexivity.
  - split; [exact (item_lookup (height_nm1 w) 1 ltac:(lia)) |].
    split; [exact (item_lookup (height_n w) 0 ltac:(lia)) |].
    split; [exact (item_lookup (height_n w) 1 ltac:(lia)) |].
    split; [exact (item_lookup (height_n w) 2 ltac:(lia)) |].
    repeat split; reflexivity.
Qed.

End Statements.

(** ** Runs with every action negated *)

Section Mirror.
Context {F : Type} `{Scalar F}.
Hypothesis Fring :
  ring_theory (of_int 0) (of_int 1) fadd fmul fsub fneg (@eq F).

Add Ring F_mirror_ring : Fring.

(** The arrays of [w2] are those of [w1] negated, and the two objects were
    built alike. *)
Record mirrored (w1 w2 : Wave1D F) : Prop := {
  mi_static : static w1 = static w2;
  mi_height : height w2 = fneg <$> height w1;
  mi_height_n : height_n w2 = fneg <$> height_n w1;
  mi_height_nm1 : height_nm1 w2 = fneg <$> height_nm1 w1
}.

Lemma item_neg (a : list F) (i : Z) :
  0 <= i < Z.of_nat (length a) ->
  item (fneg <$> a) i = fneg (item a i).
Proof.
  intros Hi. unfold item at 1.
  by rewrite list_lookup_fmap, (item_lookup a).
Qed.

Lemma impulse_val_mirror (w1 w2 : Wave1D F) (x : F) :
  force_locations w1 = force_locations w2 ->
  force_width w1 = force_width w2 ->
  length (force_vals w1) = length (force_locations w2) ->
  force_vals w2 = fneg <$> force_vals w1 ->
  impulse_val w2 x = fneg (impulse_val w1 x).
Proof using Fring.
  intros Hl Hw Hv Hv2. unfold impulse_val.
  rewrite !impulse_term_matched
    by (rewrite ?Hv2, ?length_fmap, ?Hl; done).
  assert (G : gaussians w1 x = gaussians w2 x).
  { unfold gaussians. by rewrite Hl, Hw. }
  by rewrite Hv2, G, (zip_with_neg Fring), (np_sum_neg Fring).
Qed.

Lemma stepped_mirrored (w1 w2 : Wave1D F) :
  shaped w1 -> shaped w2 -> mirrored w1 w2 ->
  length (force_vals w1) = length (force_locations w2) ->
  force_vals w2 = fneg <$> force_vals w1 ->
  mirrored (stepped w1) (stepped w2).
Proof using Fring.
  intros S1 S2 [E Hh Hn Hm] Hv Hv2.
  pose proof E as E'. unfold static in E'.
  injection E' as Edt _ _ ENx _ Eloc Efw _ Ex _ EC.
  assert (Hheight : height (stepped w2) = fneg <$> height (stepped w1)).
  { rewrite !stepped_height. unfold leapfrog_heights.
    rewrite (boundary_neg Fring), fill_fmap, <- Hh, ENx. f_equal.
    apply fill_ext. intros i Hi. apply py_range_bounds in Hi.
    rewrite (impulse_val_mirror w1 w2) by done.
    rewrite Ex. unfold leapfrog. rewrite Hn, Hm, Edt, EC.
    destruct S1 as [_ _ Hn1 Hm1 _ _ _].
    rewrite !item_neg by lia. ring. }
  split.
  - by rewrite !stepped_static.
  - exact Hheight.
  - by rewrite !stepped_height_n.
  - by rewrite !stepped_height_nm1.
Qed.

Lemma drive_mirrored (acts : list (list F)) (w1 w2 : Wave1D F) :
  shaped w1 -> shaped w2 -> mirrored w1 w2 ->
  Forall (fun a => length a = length (force_locations w2)) acts ->
  exists w1' w2',
    drive acts w1 = Ok w1' /\
    drive ((fun a : list F => fneg <$> a) <$> acts) w2 = Ok w2' /\
    mirrored w1' w2'.
Proof using Fring.
  revert w1 w2. induction acts as [| a acts IH]; intros w1 w2 S1 S2 Hmi Hf.
  - by exists w1, w2.
  - apply Forall_cons in Hf as [Ha Hf].
    pose proof (mi_static _ _ Hmi) as E. unfold static in E.
    injection E as _ _ _ _ _ Eloc _ _ _ _ _.
    assert (P1 : shaped (set_force_vals w1 a))
      by (eapply take_in_action_shaped; [exact S1 | reflexivity]).
    assert (P2 : shaped (set_force_vals w2 (fneg <$> a)))
      by (eapply take_in_action_shaped; [exact S2 | reflexivity]).
    assert (Hmi' : mirrored (set_force_vals w1 a)
                     (set_force_vals w2 (fneg <$> a))).
    { by destruct Hmi. }
    pose proof (stepped_mirrored _ _ P1 P2 Hmi' Ha eq_refl) as Hst.
    destruct (IH _ _ (stepped_shaped _ P1) (stepped_shaped _ P2) Hst Hf)
      as (w1' & w2' & D1 & D2 & Hfin).
    exists w1', w2'.
    cbn [drive fmap list_fmap]. unfold take_in_action.
    cbn [mbind result_bind].
    rewrite !single_step_cases by done.
    unfold shapes_agree.
    cbn [force_vals force_locations set_force_vals Nx].
    rewrite length_fmap, Eloc, Ha, Nat.eqb_refl.
    rewrite !orb_true_r. cbn [mbind result_bind].
    done.
Qed.

(** In a ring, runs from rest with negated actions are negated. *)
Lemma mirror_in_ring (config : Config F) (w0 : Wave1D F)
    (acts : list (list F)) :
  reachable config w0 ->
  Forall (fun a => length a = Z.to_nat (num_force_points_cfg config)) acts ->
  exists w w1 w2,
    reset w0 = Ok w /\
    drive acts w = Ok w1 /\
    drive ((fun a : list F => fneg <$> a) <$> acts) w = Ok w2 /\
    height w2 = fneg <$> height w1 /\
    height_n w2 = fneg <$> height_n w1 /\
    height_nm1 w2 = fneg <$> height_nm1 w1.
Proof using Fring.
  intros Hr Hf.
  pose proof (allocated_shaped_of_reachable _ _ Hr) as Ha.
  pose proof (at_rest_shaped _ Ha) as Hs.
  assert (Hmi : mirrored (rest_of config) (rest_of config)).
  { split; try done; cbn; unfold flat; rewrite fmap_replicate;
      replace (fneg zero) with zero by (unfold zero; ring); done. }
  assert (Hloc : length (force_locations (rest_of config))
                 = Z.to_nat (num_force_points_cfg config)).
  { exact (sh_locs _ Ha). }
  destruct (drive_mirrored acts (rest_of config) (rest_of config) Hs Hs Hmi)
    as (w1 & w2 & D1 & D2 & [_ Hh Hn Hm]).
  { by rewrite Hloc. }
  exists (rest_of config), w1, w2.
  split; [by apply (reset_reachable Fring) |]. by repeat split.
Qed.

(** In a ring the constructed object is the rest configuration. *)
Lemma constructed_in_ring (config : Config F) (w : Wave1D F) :
  init config = Ok w ->
  w = rest_of config /\
  height w = replicate (Z.to_nat (num_lattice_points config + 1)) zero /\
  height_n w = replicate (Z.to_nat (num_lattice_points config + 1)) zero /\
  height_nm1 w = replicate (Z.to_nat (num_lattice_points config + 1)) zero /\
  force_vals w = replicate (Z.to_nat (num_force_points_cfg config)) zero /\
  t w = zero /\ n w = 0 /\
  get_observation w =
    Ok {| chan0 := replicate (Z.to_nat (num_lattice_points config + 1)) zero;
          chan1 := replicate (Z.to_nat (num_lattice_points config + 1)) zero;
          chan2 := replicate (Z.to_nat (num_lattice_points config + 1)) zero
       |} /\
  reset w = Ok w.
Proof using Fring.
  intros E.
  assert (Hr : reachable config w) by (by apply reach_init).
  pose proof (allocated_shaped_of_reachable _ _ Hr) as Ha.
  assert (Ew : w = rest_of config).
  { rewrite (init_Ok_eq _ _ E). by apply (rested_at_rest Fring). }
  subst w. split; [done |].
  split; [done |]. split; [done |]. split; [done |]. split; [done |].
  split; [done |]. split; [done |]. split.
  - by rewrite get_observation_eq by (by apply at_rest_shaped).
  - by apply (reset_reachable Fring).
Qed.

End Mirror.

(** ** Valid configurations

    The statements below are about configurations as the constructor's
    docstring asks for them: the four real parameters positive, at least one
    lattice interval and one piston.  In the arithmetic of doubles they need
    it: with a zero width the Gaussian factor is undefined where a mesh point
    meets a piston, and the arrays are no longer zero at rest. *)

Section Valid.
Context {F : Type} `{Scalar F}.
Variable lt : F -> F -> Prop.
Hypothesis laws : ordered_laws lt.

Definition valid_config (config : Config F) : Prop :=
  lt zero (time_interval config) /\
  lt zero (wave_speed config) /\
  lt zero (system_length config) /\
  lt zero (force_width_cfg config) /\
  1 <= num_lattice_points config /\
  1 <= num_force_points_cfg config.

(** X5.  For a valid configuration, with no action applied the string
    never moves: after [reset()] and any number [k] of [single_step()] calls,
    the calls all return, the three arrays are still zero at every mesh point,
    [n = k], and [get_observation()] returns three zero channels. *)
Theorem zero_force_stays_flat (config : Config F) (w0 : Wave1D F) (k : nat) :
  valid_config config ->
  reachable config w0 ->
  exists w w',
    reset w0 = Ok w /\
    steps k w = Ok w' /\
    height w' = replicate (Z.to_nat (num_lattice_points config + 1)) zero /\
    height_n w' = replicate (Z.to_nat (num_lattice_points config + 1)) zero /\
    height_nm1 w' = replicate (Z.to_nat (num_lattice_points config + 1)) zero /\
    n w' = Z.of_nat k /\
    get_observation w' =
      Ok {| chan0 := replicate (Z.to_nat (num_lattice_points config + 1)) zero;
            chan1 := replicate (Z.to_nat (num_lattice_points config + 1)) zero;
            chan2 := replicate (Z.to_nat (num_lattice_points config + 1)) zero
         |}.
Proof using laws.
  intros _ Hr. exact (flat_in_ring (ol_ring lt laws) config w0 k Hr).
Qed.

(** X6.  The first step after an action, for a valid configuration.  After
    [reset()], [take_in_action(a)] with one entry per piston and one
    [single_step()], the interior entries of [height] are
    [dt**2 * impulse_term(x_mesh[i])] for the applied vector, both ends are
    zero, [height_nm1] is zero everywhere and [n = 1]. *)
Theorem first_step_from_rest (config : Config F) (w0 : Wave1D F)
    (a : list F) :
  valid_config config ->
  reachable config w0 ->
  length a = Z.to_nat (num_force_points_cfg config) ->
  exists w w',
    reset w0 = Ok w /\
    (take_in_action w a ≫= single_step) = Ok w' /\
    (forall i, 1 <= i <= num_lattice_points config - 1 ->
       exists xi imp,
         x_mesh w !! Z.to_nat i = Some xi /\
         impulse_term (set_force_vals w a) xi = Ok imp /\
         height w' !! Z.to_nat i
           = Some (fmul (pow2 (time_interval config)) imp)) /\
    height w' !! 0%nat = Some zero /\
    height w' !! Z.to_nat (num_lattice_points config) = Some zero /\
    height_nm1 w'
      = replicate (Z.to_nat (num_lattice_points config + 1)) zero /\
    n w' = 1.
Proof using laws.
  intros _ Hr Ha.
  exact (first_step_in_ring (ol_ring lt laws) config w0 a Hr Ha).
Qed.

(** X11.  Negating a whole run, for a valid configuration.  Take a list of
    action vectors, each with one entry per piston.  Starting each time from
    the state left by [reset()], driving the string with the list and with
    every vector negated both return, and at the end the three arrays of the
    second run are those of the first negated entry by entry. *)
Theorem negated_run_negates (config : Config F) (w0 : Wave1D F)
    (acts : list (list F)) :
  valid_config config ->
  reachable config w0 ->
  Forall (fun a => length a = Z.to_nat (num_force_points_cfg config)) acts ->
  exists w w1 w2,
    reset w0 = Ok w /\
    drive acts w = Ok w1 /\
    drive ((fun a : list F => fneg <$> a) <$> acts) w = Ok w2 /\
    height w2 = fneg <$> height w1 /\
    height_n w2 = fneg <$> height_n w1 /\
    height_nm1 w2 = fneg <$> height_nm1 w1.
Proof using laws.
  intros _ Hr Hf.
  exact (mirror_in_ring (ol_ring lt laws) config w0 acts Hr Hf).
Qed.

(** X12.  Construction leaves the string at rest, for a valid
    configuration: the object [__init__] returns has three zero arrays, no
    force, [t = 0] and [n = 0]; [get_observation()] on it returns three zero
    channels, and a [reset()] right after construction changes nothing. *)
Theorem constructed_at_rest (config : Config F) (w : Wave1D F) :
  valid_config config ->
  init config = Ok w ->
  w = rest_of config /\
  height w = replicate (Z.to_nat (num_lattice_points config + 1)) zero /\
  height_n w = replicate (Z.to_nat (num_lattice_points config + 1)) zero /\
  height_nm1 w = replicate (Z.to_nat (num_lattice_points config + 1)) zero /\
  force_vals w = replicate (Z.to_nat (num_force_points_cfg config)) zero /\
  t w = zero /\ n w = 0 /\
  get_observation w =
    Ok {| chan0 := replicate (Z.to_nat (num_lattice_points config + 1)) zero;
          chan1 := replicate (Z.to_nat (num_lattice_points config + 1)) zero;
          chan2 := replicate (Z.to_nat (num_lattice_points config + 1)) zero
       |} /\
  reset w = Ok w.
Proof using laws.
  intros _ E. exact (constructed_in_ring (ol_ring lt laws) config w E).
Qed.

End Valid.

Section Trajectories.
Context {F : Type} `{Scalar F}.

(** X13.  The two trajectory lists that [__init__] creates are never
    written: in every state reached from a constructed object [height_traj]
    and [action_traj] are empty. *)
Theorem trajectories_stay_empty (config : Config F) (w : Wave1D F) :
  reachable config w -> height_traj w = [] /\ action_traj w = [].
Proof.
  induction 1 as [w E | w w' Hr IH E | w w' Hr IH E | w a w' Hr IH E].
  - by rewrite (init_Ok_eq _ _ E).
  - rewrite reset_eq in E by (by eapply reachable_shaped).
    by injection E as <-.
  - rewrite single_step_cases in E by (by eapply reachable_shaped).
    destruct (_ || _); [| discriminate]. by injection E as <-.
  - by injection E as <-.
Qed.

End Trajectories.

(** ** Every state of an object, also after a call that raised *)

Section Visited.
Context {F : Type} `{Scalar F}.

(** The states an object goes through when its caller also goes on after a
    [single_step] that raised.  The flag tells whether the last [reset] or
    [single_step] returned. *)
Inductive visited (config : Config F) : bool -> Wave1D F -> Prop :=
| vis_init w :
    init config = Ok w -> visited config true w
| vis_reset b w w' :
    visited config b w -> reset w = Ok w' -> visited config true w'
| vis_step b w w' :
    visited config b w -> single_step w = Ok w' -> visited config true w'
| vis_step_raised b w w' e :
    visited config b w -> single_step_traced w = (w', Some e) ->
    visited config false w'
| vis_action b w a w' :
    visited config b w -> take_in_action w a = Ok w' -> visited config b w'.

Definition keeps_shape (s : Wave1D F -> result (Wave1D F)) : Prop :=
  forall w w', shaped w -> s w = Ok w' -> shaped w'.

Lemma run_block_shaped (stmts : list (Wave1D F -> result (Wave1D F)))
    (w : Wave1D F) :
  Forall keeps_shape stmts -> shaped w -> shaped (fst (run_block stmts w)).
Proof.
  intros Hk. revert w. induction Hk as [| s stmts Hs _ IH]; intros w Hw.
  - exact Hw.
  - cbn [run_block]. destruct (s w) as [w' | e] eqn:E; [| exact Hw].
    apply IH. by apply (Hs w).
Qed.

Lemma set_height_shaped (w : Wave1D F) (a : list F) :
  shaped w -> length a = length (height w) -> shaped (set_height w a).
Proof. intros [] Ha. split; cbn; try done. congruence. Qed.

Lemma set_height_n_shaped (w : Wave1D F) (a : list F) :
  shaped w -> length a = length (height_n w) -> shaped (set_height_n w a).
Proof. intros [] Ha. split; cbn; try done. congruence. Qed.

Lemma set_height_nm1_shaped (w : Wave1D F) (a : list F) :
  shaped w -> length a = length (height_nm1 w) -> shaped (set_height_nm1 w a).
Proof. intros [] Ha. split; cbn; try done. congruence. Qed.

Lemma step_stmt_1_keeps (i : Z) : keeps_shape (step_stmt_1 i).
Proof.
  intros w w' Hw E. unfold step_stmt_1 in E.
  inv_bind E as hm Ehm. inv_bind E as hn Ehn. inv_bind E as a Ea.
  injection E as <-. apply set_height_shaped; [done |].
  by eapply setitem_length.
Qed.

Lemma step_stmt_2_keeps (i : Z) : keeps_shape (step_stmt_2 i).
Proof.
  intros w w' Hw E. unfold step_stmt_2 in E.
  inv_bind E as cur Ecur. inv_bind E as hl Ehl. inv_bind E as hc Ehc.
  inv_bind E as hr Ehr. inv_bind E as a Ea.
  injection E as <-. apply set_height_shaped; [done |].
  by eapply setitem_length.
Qed.

Lemma step_stmt_3_keeps (i : Z) : keeps_shape (step_stmt_3 i).
Proof.
  intros w w' Hw E. unfold step_stmt_3 in E.
  inv_bind E as cur Ecur. inv_bind E as xi Exi. inv_bind E as imp Eimp.
  inv_bind E as a Ea.
  injection E as <-. apply set_height_shaped; [done |].
  by eapply setitem_length.
Qed.

Lemma single_step_stmts_keep (w0 : Wave1D F) :
  Forall keeps_shape (single_step_stmts w0).
Proof.
  unfold single_step_stmts. apply Forall_app_2; [| apply Forall_app_2].
  - apply Forall_cons_2; [| apply Forall_cons_2; [| apply Forall_nil_2]];
      intros w w' [] [= <-]; by split.
  - induction (py_range 1 (Nx w0)) as [| i idxs IH]; cbn [flat_map].
    + apply Forall_nil_2.
    + apply Forall_app_2; [| exact IH].
      apply Forall_cons_2; [apply step_stmt_1_keeps |].
      apply Forall_cons_2; [apply step_stmt_2_keeps |].
      apply Forall_cons_2; [apply step_stmt_3_keeps | apply Forall_nil_2].
  - apply Forall_cons_2; [| apply Forall_cons_2;
      [| apply Forall_cons_2; [| apply Forall_cons_2; [| apply Forall_nil_2]]]];
      intros w w' Hw E; inv_bind E as a Ea; injection E as <-.
    + apply set_height_shaped; [done | by eapply setitem_length].
    + apply set_height_shaped; [done | by eapply setitem_length].
    + apply set_height_nm1_shaped; [done | by eapply assign_all_length].
    + apply set_height_n_shaped; [done | by eapply assign_all_length].
Qed.

Lemma visited_shaped (config : Config F) (b : bool) (w : Wave1D F) :
  visited config b w -> shaped w.
Proof.
  induction 1 as [w E | b w w' _ IH E | b w w' _ IH E
                  | b w w' e _ IH E | b w a w' _ IH E].
  - apply (reachable_shaped config). by apply reach_init.
  - rewrite reset_eq in E by done. injection E as <-.
    by apply rested_shaped.
  - by eapply single_step_shaped.
  - unfold single_step_traced in E.
    pose proof (run_block_shaped _ w (single_step_stmts_keep w) IH) as Hs.
    by rewrite E in Hs.
  - by eapply take_in_action_shaped.
Qed.

(** Every state reached through returning calls only is among them, with
    the flag set. *)
Lemma reachable_visited (config : Config F) (w : Wave1D F) :
  reachable config w -> visited config true w.
Proof.
  induction 1 as [w E | w w' _ IH E | w w' _ IH E | w a w' _ IH E].
  - by apply vis_init.
  - by apply (vis_reset _ true w).
  - by apply (vis_step _ true w).
  - by apply (vis_action _ true w a).
Qed.

(** From every such state [reset()] returns, so a raising [single_step] is
    the only call that leaves the object between two time levels. *)
Lemma visited_reset_returns (config : Config F) (b : bool) (w : Wave1D F) :
  visited config b w -> is_ok (reset w) = true.
Proof.
  intros Hv. by rewrite reset_eq by (by eapply visited_shaped).
Qed.

(** C10, as the program has it.  As long as the last [reset()] or
    [single_step()] returned, [height_n] is equal to [height], so channels 0
    and 1 of [get_observation()] are the same array; this holds again after
    the next [reset()] or [single_step()] that returns, whatever raised
    before.  In every state, also after a [single_step()] that raised,
    [get_observation()] returns and its channels are [height], [height_n] and
    [height_nm1]. *)
Theorem observation_levels (config : Config F) (b : bool) (w : Wave1D F) :
  visited config b w ->
  (b = true -> height_n w = height w) /\
  exists o, get_observation w = Ok o /\
    chan0 o = height w /\ chan1 o = height_n w /\ chan2 o = height_nm1 w /\
    (b = true -> chan0 o = chan1 o).
Proof.
  intros Hv. pose proof (visited_shaped _ _ _ Hv) as Hw.
  assert (Heq : b = true -> height_n w = height w).
  { clear Hw.
    induction Hv as [w E | b w w' Hv IH E | b w w' Hv IH E
                     | b w w' e Hv IH E | b w a w' Hv IH E]; intros Hb.
    - by rewrite (init_Ok_eq _ _ E).
    - rewrite reset_eq in E by (by eapply visited_shaped).
      by injection E as <-.
    - rewrite single_step_cases in E by (by eapply visited_shaped).
      destruct (_ || _); [| discriminate]. by injection E as <-.
    - discriminate.
    - injection E as <-. by apply IH. }
  split; [exact Heq |].
  eexists. split; [by apply get_observation_eq |].
  cbn. repeat split. intros Hb. by rewrite (Heq Hb).
Qed.

End Visited.

(** * More concrete runs on the rationals *)

Module MoreRuns.
Import Rational Runs.

Ltac reach_demo_wave := apply reach_init, init_passes_Ok; reflexivity.
Ltac reach_demo_pushed :=
  apply (reach_action _ demo_wave demo_action);
  [reach_demo_wave | reflexivity].
Ltac demo_valid := repeat split; first [reflexivity | cbn; lia].

(** [demo_wave] after [take_in_action([1, 1])]: two entries for three
    pistons. *)
Definition demo_misfit : Wave1D Qc :=
  set_force_vals demo_wave [qc_of_int 1; qc_of_int 1].

Ltac reach_demo_misfit :=
  apply (reach_action _ demo_wave [qc_of_int 1; qc_of_int 1]);
  [reach_demo_wave | reflexivity].

(** [demo_pushed] one step later, then given two entries for three pistons,
    then as the [single_step] that raises leaves it. *)
Definition demo_moving : Wave1D Qc := stepped demo_pushed.

Definition demo_moving_misfit : Wave1D Qc :=
  set_force_vals demo_moving [qc_of_int 1; qc_of_int 1].

Definition demo_broken : Wave1D Qc :=
  fst (single_step_traced demo_moving_misfit).

Lemma demo_broken_visited : visited demo_config false demo_broken.
Proof.
  apply (vis_step_raised _ true demo_moving_misfit demo_broken ValueError).
  - apply (vis_action _ true demo_moving [qc_of_int 1; qc_of_int 1]);
      [| reflexivity].
    apply (vis_step _ true demo_pushed).
    + apply (vis_action _ true demo_wave demo_action); [| reflexivity].
      apply vis_init, init_passes_Ok. reflexivity.
    + rewrite single_step_cases
        by (apply (reachable_shaped demo_config), demo_pushed_reachable).
      reflexivity.
  - apply injective_projections; [reflexivity | vm_compute; reflexivity].
Qed.

(** C10: after a [single_step] that raised, channels 0 and 1 differ.  The
    string was moving, the action had the wrong length, and the call stopped
    after it had rewritten [height[1]] but before it copied [height] to
    [height_n]. *)
Lemma failed_step_splits_levels :
  visited demo_config false demo_broken /\
  single_step demo_moving_misfit = Raise ValueError /\
  height_n demo_broken <> height demo_broken /\
  exists o, get_observation demo_broken = Ok o /\ chan0 o <> chan1 o.
Proof.
  pose proof demo_broken_visited as Hv.
  split; [exact Hv |]. split; [vm_compute; reflexivity |].
  assert (Hne : height_n demo_broken <> height demo_broken).
  { intros E.
    apply (f_equal (fun l : list Qc => this <$> (l !! 1%nat))) in E.
    vm_compute in E. discriminate E. }
  split; [exact Hne |].
  eexists. split.
  - apply get_observation_eq. by eapply visited_shaped.
  - cbn. intros E. by apply Hne.
Qed.

(** C10 as amended, on [demo_pushed]. *)
Lemma observation_levels_run :
  (true = true -> height_n demo_pushed = height demo_pushed) /\
  exists o, get_observation demo_pushed = Ok o /\
    chan0 o = height demo_pushed /\ chan1 o = height_n demo_pushed /\
    chan2 o = height_nm1 demo_pushed /\
    (true = true -> chan0 o = chan1 o).
Proof.
  apply (observation_levels demo_config true demo_pushed).
  apply (vis_action _ true demo_wave demo_action); [| reflexivity].
  apply vis_init, init_passes_Ok. reflexivity.
Defined.

(** X1 on [demo_pushed]. *)
Lemma impulse_profile_entries_run :
  exists p,
    get_impulse_profile demo_pushed = Ok p /\
    length p = Z.to_nat (Nx demo_pushed + 1) /\
    (forall (k : nat) (xk : Qc),
        x_mesh demo_pushed !! k = Some xk ->
        exists v, impulse_term demo_pushed xk = Ok v /\ p !! k = Some v) /\
    exec qc_gradient qc_simps GetImpulseProfile demo_pushed
      = Ok (VArray p, demo_pushed).
Proof.
  apply (impulse_profile_entries qc_gradient qc_simps demo_config demo_pushed).
  - reach_demo_pushed.
  - reflexivity.
Defined.

(** X2 on [demo_misfit]: the profile is refused. *)
Lemma impulse_profile_returns_iff_run :
  is_ok (get_impulse_profile demo_misfit)
    = shapes_agree (force_vals demo_misfit) (force_locations demo_misfit).
Proof.
  apply (impulse_profile_returns_iff demo_config demo_misfit).
  reach_demo_misfit.
Defined.

(** X3 on [demo_misfit]. *)
Lemma single_step_returns_iff_run :
  is_ok (single_step demo_misfit)
    = (Nx demo_misfit <? 2)
      || shapes_agree (force_vals demo_misfit) (force_locations demo_misfit).
Proof.
  apply (single_step_returns_iff demo_config demo_misfit).
  reach_demo_misfit.
Defined.

(** X10 on [demo_misfit]. *)
Lemma reset_recovers_run :
  exists w',
    reset demo_misfit = Ok w' /\
    length (force_vals w') = Z.to_nat (num_force_points demo_misfit) /\
    is_ok (single_step w') = true /\
    is_ok (get_impulse_profile w') = true.
Proof.
  apply (reset_recovers demo_config demo_misfit).
  reach_demo_misfit.
Defined.

(** X4 on [demo_pushed], three steps. *)
Lemma steps_count_and_keep_force_run :
  reachable demo_config demo_pushed /\
  is_ok (steps 3 demo_pushed) = true.
Proof.
  assert (Hr : reachable demo_config demo_pushed) by reach_demo_pushed.
  split; [exact Hr |].
  apply (proj1 (steps_count_and_keep_force demo_config 3 demo_pushed Hr)).
  reflexivity.
Defined.

(** X5 on [demo_pushed], five steps after the reset. *)
Lemma zero_force_stays_flat_run :
  valid_config Qclt demo_config /\
  exists w w',
    reset demo_pushed = Ok w /\
    steps 5 w = Ok w' /\
    height w' = replicate (Z.to_nat (num_lattice_points demo_config + 1)) zero /\
    n w' = Z.of_nat 5.
Proof.
  assert (Hc : valid_config Qclt demo_config) by demo_valid.
  split; [exact Hc |].
  assert (Hr : reachable demo_config demo_pushed) by reach_demo_pushed.
  destruct (zero_force_stays_flat Qclt qc_ordered demo_config demo_pushed 5
              Hc Hr)
    as (w & w' & Er & Es & Hh & _ & _ & Hn & _).
  exists w, w'. split; [exact Er |]. split; [exact Es |].
  split; [exact Hh | exact Hn].
Defined.

(** X6 on [demo_action]. *)
Lemma first_step_from_rest_run :
  valid_config Qclt demo_config /\
  exists w w',
    reset demo_pushed = Ok w /\
    (take_in_action w demo_action ≫= single_step) = Ok w' /\
    n w' = 1.
Proof.
  assert (Hc : valid_config Qclt demo_config) by demo_valid.
  split; [exact Hc |].
  assert (Hr : reachable demo_config demo_pushed) by reach_demo_pushed.
  destruct (first_step_from_rest Qclt qc_ordered demo_config demo_pushed
              demo_action Hc Hr eq_refl)
    as (w & w' & Er & Es & _ & _ & _ & _ & En).
  exists w, w'. split; [exact Er |]. split; [exact Es | exact En].
Defined.

(** X8 on [demo_pushed]: four intervals of length 1/4. *)
Lemma mesh_layout_run :
  Qclt zero (system_length demo_config) /\
  dx demo_pushed = fdiv (system_length demo_config) (of_int (Nx demo_pushed)) /\
  x_mesh demo_pushed !! Z.to_nat (Nx demo_pushed)
    = Some (system_length demo_config).
Proof.
  assert (HL : Qclt zero (system_length demo_config)) by reflexivity.
  split; [exact HL |].
  assert (Hr : reachable demo_config demo_pushed) by reach_demo_pushed.
  destruct (mesh_layout Qclt qc_ordered demo_config demo_pushed HL Hr)
    as (_ & _ & _ & Hlast & Hdx & _).
  split; [exact Hdx | exact Hlast].
Defined.

(** X9 on [demo_misfit]: [t] and [n] have moved although the call raised. *)
Lemma failed_step_is_not_undone_run :
  2 <= Nx demo_misfit /\
  shapes_agree (force_vals demo_misfit) (force_locations demo_misfit) = false /\
  single_step demo_misfit = Raise ValueError /\
  exists w',
    single_step_traced demo_misfit = (w', Some ValueError) /\
    t w' = fadd (t demo_misfit) (dt demo_misfit) /\
    n w' = n demo_misfit + 1.
Proof.
  assert (HN : 2 <= Nx demo_misfit) by (cbn; lia).
  assert (Hag : shapes_agree (force_vals demo_misfit)
                  (force_locations demo_misfit) = false) by reflexivity.
  assert (Hr : reachable demo_config demo_misfit) by reach_demo_misfit.
  split; [exact HN |]. split; [exact Hag |].
  destruct (failed_step_is_not_undone demo_config demo_misfit Hr HN Hag)
    as (Ef & _ & w' & hm & hl & hc & hr & Et & _ & _ & _ & _ & Ht & Hn & _).
  split; [exact Ef |].
  exists w'. split; [exact Et |]. split; [exact Ht | exact Hn].
Defined.

(** Two actions in a row for three pistons. *)
Definition demo_acts : list (list Qc) :=
  [demo_action; [qc_of_int 0; qc_of_int 1; qc_of_int 0]].

(** X11 on [demo_acts]. *)
Lemma negated_run_negates_run :
  valid_config Qclt demo_config /\
  exists w w1 w2,
    reset demo_pushed = Ok w /\
    drive demo_acts w = Ok w1 /\
    drive ((fun a : list Qc => fneg <$> a) <$> demo_acts) w = Ok w2 /\
    height w2 = fneg <$> height w1.
Proof.
  assert (Hc : valid_config Qclt demo_config) by demo_valid.
  split; [exact Hc |].
  assert (Hr : reachable demo_config demo_pushed) by reach_demo_pushed.
  assert (Hf : Forall (fun a : list Qc =>
                         length a = Z.to_nat (num_force_points_cfg demo_config))
                 demo_acts) by (repeat constructor).
  destruct (negated_run_negates Qclt qc_ordered demo_config demo_pushed
              demo_acts Hc Hr Hf)
    as (w & w1 & w2 & Er & D1 & D2 & Hh & _).
  exists w, w1, w2. split; [exact Er |]. split; [exact D1 |].
  split; [exact D2 | exact Hh].
Defined.

(** X12 on [demo_config]. *)
Lemma constructed_at_rest_run :
  valid_config Qclt demo_config /\
  init demo_config = Ok demo_wave /\
  demo_wave = rest_of demo_config /\
  reset demo_wave = Ok demo_wave.
Proof.
  assert (Hc : valid_config Qclt demo_config) by demo_valid.
  split; [exact Hc |].
  assert (E : init demo_config = Ok demo_wave).
  { apply init_passes_Ok. reflexivity. }
  split; [exact E |].
  destruct (constructed_at_rest Qclt qc_ordered demo_config demo_wave Hc E)
    as (Ew & _ & _ & _ & _ & _ & _ & _ & Er).
  split; [exact Ew | exact Er].
Defined.

(** X13 on [demo_pushed]. *)
Lemma trajectories_stay_empty_run :
  height_traj demo_pushed = [] /\ action_traj demo_pushed = [].
Proof.
  apply (trajectories_stay_empty demo_config demo_pushed).
  reach_demo_pushed.
Defined.

End MoreRuns.
